(** * ClauQBot: a shallow embedding of the bot core (src/bot.py), the Claude
    CLI handler (src/claude_handler.py) and the OneBot client
    (src/onebot_client.py), with the properties of their specification. *)

From Stdlib Require Import ZArith QArith Qminmax.
From stdpp Require Import base gmap sets list strings pretty.

(* ------------------------------------------------------------------ *)
(** ** Python strings *)

(** A Python [str] is a sequence of Unicode code points: [len], indexing and
    slicing count code points, never bytes. *)
Definition pystr := list N.

(** ASCII literals as Python strings. *)
Definition py (s : string) : pystr :=
  map (fun a => N.of_nat (Ascii.nat_of_ascii a)) (String.list_ascii_of_string s).

(** The code points for which [str.isspace] holds (CPython's
    [Py_UNICODE_ISSPACE]); [str.strip()] with no argument removes them. *)
Definition py_isspace (c : N) : bool :=
  (((9 <=? c) && (c <=? 13)) || ((28 <=? c) && (c <=? 32)) ||
   (c =? 133) || (c =? 160) || (c =? 5760) ||
   ((8192 <=? c) && (c <=? 8202)) || (c =? 8232) || (c =? 8233) ||
   (c =? 8239) || (c =? 8287) || (c =? 12288))%N.

Fixpoint py_lstrip (s : pystr) : pystr :=
  match s with
  | [] => []
  | c :: s' => if py_isspace c then py_lstrip s' else s
  end.

Definition py_rstrip (s : pystr) : pystr := rev (py_lstrip (rev s)).

(** [s.strip()] *)
Definition py_strip (s : pystr) : pystr := py_rstrip (py_lstrip s).

(** [s.startswith(p)] *)
Fixpoint startswith (s p : pystr) : bool :=
  match p, s with
  | [], _ => true
  | c :: p', d :: s' => (c =? d)%N && startswith s' p'
  | _ :: _, [] => false
  end.

(* ------------------------------------------------------------------ *)
(** ** Bot: command prefixes (bot.py, [Bot.is_command], [Bot.strip_command_prefix]) *)

(** ["/问"]: '问' is U+95EE. *)
Definition prefix_wen : pystr := [47; 38382]%N.

(** [bot_config.get('command_prefix', ['/c', '/claude', '/问', '/ask'])] *)
Definition default_command_prefixes : list pystr :=
  [py "/c"; py "/claude"; prefix_wen; py "/ask"].

Fixpoint is_command (command_prefixes : list pystr) (message : pystr) : bool :=
  match command_prefixes with
  | [] => false
  | prefix :: rest => if startswith message prefix then true else is_command rest message
  end.

Fixpoint strip_command_prefix (command_prefixes : list pystr) (message : pystr) : pystr :=
  match command_prefixes with
  | [] => message
  | prefix :: rest =>
      if startswith message prefix
      then py_strip (drop (length prefix) message)
      else strip_command_prefix rest message
  end.


(* ------------------------------------------------------------------ *)
(** ** Bot: long replies (bot.py, [Bot.send_long_message]) *)

(** The observable effects of the bot's coroutines: a message handed to a send
    function, a call of [asyncio.sleep] (seconds). *)
Inductive effect :=
  | Send (text : pystr)
  | Sleep (seconds : Q).

(** [range(i, n, step)] for [step > 0], enumerated with [fuel] steps at most. *)
Fixpoint range_from (fuel : nat) (i n step : nat) : list nat :=
  match fuel with
  | O => []
  | S fuel' => if Nat.ltb i n then i :: range_from fuel' (i + step) n step else []
  end.

(** [range(0, n, step)]: at most [n] values when [step >= 1]. *)
Definition py_range (n step : nat) : list nat := range_from n 0 n step.

(** [message[i:j]] for [0 <= i <= j]. *)
Definition slice (message : pystr) (i j : nat) : pystr := take (j - i) (drop i message).

(** [send_long_message(send_func, message, max_length)]: [None] is the
    [ValueError] that [range] raises for a zero step. [send_func(msg)] is the
    effect [Send msg]. *)
Definition send_long_message (message : pystr) (max_length : nat) : option (list effect) :=
  if Nat.leb (length message) max_length then Some [Send message]
  else if Nat.eqb max_length 0 then None
  else Some (flat_map (fun i => [Send (slice message i (i + max_length)); Sleep (1 # 2)])
                      (py_range (length message) max_length)).

(** Reference splitting: consecutive pieces of [m] code points. *)
Fixpoint split_every (fuel m : nat) (l : pystr) : list pystr :=
  match fuel with
  | O => []
  | S fuel' =>
      match l with
      | [] => []
      | _ :: _ => take m l :: split_every fuel' m (drop m l)
      end
  end.

(* ------------------------------------------------------------------ *)
(** ** Claude handler: backoff (claude_handler.py, [ClaudeHandler._calculate_backoff]) *)

(** [min(a, b)]: [b] only when [b < a]. *)
Definition py_min (a b : Q) : Q := if Qle_bool a b then a else b.

(** Python's [float * int] converts the int to a float first and raises
    [OverflowError] when it is too large: [2 ** k] converts exactly for
    [k <= 1023] and not at all for [k >= 1024]. Floats are written as the
    rationals they denote: multiplying a float by a power of two is exact (a
    product beyond the float range becomes [inf], which [min] replaces by the
    finite [max_backoff], as the exact product does here). [None] is the
    [OverflowError]. For [attempt < 1], [2 ** (attempt - 1)] is the float
    [2^(attempt-1)]. *)
Definition calculate_backoff (initial_backoff max_backoff : Q) (attempt : Z) : option Q :=
  let e := (attempt - 1)%Z in
  if (e <? 0)%Z then Some (py_min (initial_backoff / inject_Z (2 ^ (- e))) max_backoff)
  else if (1024 <=? e)%Z then None
  else Some (py_min (initial_backoff * inject_Z (2 ^ e)) max_backoff).

(** Spec formula of the Backoff Policy, for comparison with the code. *)
Definition spec_delay (initial_backoff max_backoff : Q) (n : nat) : Q :=
  Qmin (initial_backoff * inject_Z (2 ^ Z.of_nat (n - 1))) max_backoff.

(** [str(e)] of the [OverflowError] above. *)
Definition overflow_msg : pystr := py "int too large to convert to float".

(* ------------------------------------------------------------------ *)
(** ** Claude handler: results and retries (claude_handler.py, [ClaudeHandler.call]) *)

(** JSON values as [json.loads] returns them (ints and floats apart, since
    their truthiness and type names differ). *)
#[warnings="-register-all"]
Inductive json :=
  | JNull
  | JBool (b : bool)
  | JInt (z : Z)
  | JFloat (q : Q)
  | JStr (s : pystr)
  | JArr (l : list json)
  | JObj (kvs : list (pystr * json)).

(** Truthiness of a value ([if v:]). *)
Definition truthy (v : json) : bool :=
  match v with
  | JNull => false
  | JBool b => b
  | JInt z => negb (z =? 0)%Z
  | JFloat q => negb (Qeq_bool q 0)
  | JStr s => negb (bool_decide (s = []))
  | JArr l => negb (bool_decide (l = []))
  | JObj kvs => negb (bool_decide (kvs = []))
  end.

(** [type(v).__name__] *)
Definition type_name (v : json) : string :=
  match v with
  | JNull => "NoneType" | JBool _ => "bool" | JInt _ => "int" | JFloat _ => "float"
  | JStr _ => "str" | JArr _ => "list" | JObj _ => "dict"
  end.

(** The result dict of [_call_sync] and [call]: keys ["success"] (always
    present), ["result"], ["cost_usd"], ["error"], ["retries"] (absent: [None]). *)
Record invocation := mk_invocation {
  success : json;
  result : option json;
  cost_usd : option json;
  error : option json;
  retries : option Z
}.

(** [result['retries'] = k] *)
Definition set_retries (r : invocation) (k : Z) : invocation :=
  mk_invocation (success r) (result r) (cost_usd r) (error r) (Some k).

(** What [await loop.run_in_executor(None, self._call_sync, ...)] gives at one
    attempt: a result dict, or an exception (with [str(e)]). *)
Inductive attempt_outcome :=
  | Returned (r : invocation)
  | Raised (msg : pystr).

(** What [call] does: return a dict or let an exception escape. *)
Inductive call_outcome :=
  | CallReturn (r : invocation)
  | CallRaise (msg : pystr).

Definition RETRYABLE_ERRORS : list pystr :=
  [py "timeout"; py "connection"; py "network"; py "temporary"; py "rate limit";
   py "503"; py "502"; py "504"].

(** [needle in hay] for strings. *)
Fixpoint contains (hay needle : pystr) : bool :=
  startswith hay needle || match hay with [] => false | _ :: hay' => contains hay' needle end.

(** "重试", "次后仍失败: ", "调用异常: " *)
Definition zh_retry : pystr := [37325; 35797]%N.
Definition zh_still_failed : pystr := [27425; 21518; 20173; 22833; 36133; 58; 32]%N.
Definition zh_call_exception : pystr := [35843; 29992; 24322; 24120; 58; 32]%N.
(** "找不到Claude CLI，请确认已安装：" ++ "npm install -g @anthropic-ai/claude-code" *)
Definition zh_cli_not_found : pystr :=
  [25214; 19981; 21040]%N ++ py "Claude CLI" ++ [65292; 35831; 30830; 35748; 24050; 23433; 35013; 65306]%N
  ++ py "npm install -g @anthropic-ai/claude-code".

(** [str(e)] of the [AttributeError] of [v.lower()] on a non-string [v]. *)
Definition attribute_error_msg (v : json) : pystr :=
  py "'" ++ py (type_name v) ++ py "' object has no attribute 'lower'".

(** [f"{last_error}"] *)
Definition py_str_opt (last_error : option pystr) : pystr :=
  match last_error with Some s => s | None => py "None" end.

(** The configuration of a [ClaudeHandler] that [call] reads. *)
Record handler := mk_handler {
  max_retries : Z;
  initial_backoff : Q;
  max_backoff : Q
}.

(** [str.lower] on ASCII strings (other code points unchanged). *)
Definition ascii_lower (s : pystr) : pystr :=
  map (fun c => if ((65 <=? c) && (c <=? 90))%N then (c + 32)%N else c) s.

Section Call.

(** [str.lower], Unicode-aware in Python: left abstract. *)
Variable py_lower : pystr -> pystr.
(** The outcome of the executor call at each attempt number. *)
Variable invoke : Z -> attempt_outcome.
Variable h : handler.

Definition is_retryable_error (error_message : pystr) : bool :=
  existsb (fun keyword => contains (py_lower error_message) keyword) RETRYABLE_ERRORS.

(** The fallback after the loop. *)
Definition all_failed (last_error : option pystr) : invocation :=
  mk_invocation (JBool false) None None
    (Some (JStr (zh_retry ++ py (pretty (max_retries h)) ++ zh_still_failed ++ py_str_opt last_error)))
    (Some (max_retries h)).

Definition exception_result (error_message : pystr) (k : Z) : invocation :=
  mk_invocation (JBool false) None None (Some (JStr (zh_call_exception ++ error_message))) (Some k).

(** [for attempt in range(attempt, max_retries + 1)] with [fuel] iterations left. *)
Fixpoint call_loop (fuel : nat) (attempt : Z) (last_error : option pystr)
    : call_outcome * list effect :=
  match fuel with
  | O => (CallReturn (all_failed last_error), [])
  | S fuel' =>
      (* the [except Exception] branch, [error_message = str(e)] *)
      let on_exception (error_message : pystr) :=
        if (attempt <? max_retries h)%Z && is_retryable_error error_message then
          match calculate_backoff (initial_backoff h) (max_backoff h) attempt with
          | Some backoff =>
              let '(o, effs) := call_loop fuel' (attempt + 1) (Some error_message) in
              (o, Sleep backoff :: effs)
          | None => (CallRaise overflow_msg, [])
          end
        else (CallReturn (exception_result error_message (attempt - 1)), []) in
      match invoke attempt with
      | Raised msg => on_exception msg
      | Returned r =>
          if truthy (success r) then (CallReturn (set_retries r (attempt - 1)), [])
          else
            let error_message := default (JStr []) (error r) in
            if (attempt <? max_retries h)%Z then
              match error_message with
              | JStr s =>
                  if is_retryable_error s then
                    match calculate_backoff (initial_backoff h) (max_backoff h) attempt with
                    | Some backoff =>
                        let '(o, effs) := call_loop fuel' (attempt + 1) (Some s) in
                        (o, Sleep backoff :: effs)
                    | None => on_exception overflow_msg
                    end
                  else (CallReturn (set_retries r (attempt - 1)), [])
              | v => on_exception (attribute_error_msg v)
              end
            else (CallReturn (set_retries r (attempt - 1)), [])
      end
  end.

(** [call(message)]; [cli_found] is [self._find_claude_cli()] not being [None]. *)
Definition call (cli_found : bool) : call_outcome * list effect :=
  if cli_found then call_loop (Z.to_nat (max_retries h)) 1 None
  else (CallReturn (mk_invocation (JBool false) None None (Some (JStr zh_cli_not_found)) (Some 0%Z)), []).

End Call.

(** An attempt that fails with a retryable error: a failed result dict whose
    error is a retryable string, or an exception with a retryable message. *)
Definition retryable_failure (py_lower : pystr -> pystr) (o : attempt_outcome) : Prop :=
  match o with
  | Raised msg => is_retryable_error py_lower msg = true
  | Returned r =>
      truthy (success r) = false /\
      exists s, error r = Some (JStr s) /\ is_retryable_error py_lower s = true
  end.

(** The attempt numbers [a, a+1, ..., a+k-1]. *)
Fixpoint zrange (a : Z) (k : nat) : list Z :=
  match k with
  | O => []
  | S k' => a :: zrange (a + 1) k'
  end.

(** A failed result with the given error message. *)
Definition failed_with (msg : pystr) : invocation :=
  mk_invocation (JBool false) None None (Some (JStr msg)) None.

(* ------------------------------------------------------------------ *)
(** ** Claude handler: one CLI run (claude_handler.py, [ClaudeHandler._call_sync]) *)

(** How [subprocess.run(...)] ends: it completes with a (decoded) stdout, or
    raises [TimeoutExpired], [FileNotFoundError] or another exception. *)
Inductive run_outcome :=
  | Completed (stdout : pystr)
  | TimeoutExpired
  | FileNotFound
  | RunError (msg : pystr).

(** [d.get(k)] on a dict parsed from JSON: the last binding of [k] wins. *)
Definition dict_get (kvs : list (pystr * json)) (k : pystr) : option json :=
  fold_left (fun acc '(k', v) => if decide (k' = k) then Some v else acc) kvs None.

(** "Claude无响应", "Claude响应超时（超过", "秒）", "Claude CLI不存在：", "调用失败: " *)
Definition zh_no_response : pystr := py "Claude" ++ [26080; 21709; 24212]%N.
Definition zh_timeout_pre : pystr := py "Claude" ++ [21709; 24212; 36229; 26102; 65288; 36229; 36807]%N.
Definition zh_timeout_post : pystr := [31186; 65289]%N.
Definition zh_cli_missing : pystr := py "Claude CLI" ++ [19981; 23384; 22312; 65306]%N.
Definition zh_call_failed : pystr := [35843; 29992; 22833; 36133; 58; 32]%N.

Section CallSync.

(** [json.loads]: [None] is a [JSONDecodeError]. *)
Variable json_loads : pystr -> option json.
(** [str(data)] of a parsed non-dict value. *)
Variable py_str_json : json -> pystr.
Variable timeout : Z.
Variable claude_path : pystr.

Definition call_sync (run : run_outcome) : invocation :=
  match run with
  | Completed stdout =>
      let output := py_strip stdout in
      if bool_decide (output = []) then
        mk_invocation (JBool false) None None (Some (JStr zh_no_response)) None
      else
        match json_loads output with
        | None => mk_invocation (JBool true) (Some (JStr output)) (Some (JInt 0)) None None
        | Some (JObj kvs) =>
            mk_invocation
              (default (JBool true) (dict_get kvs (py "success")))
              (Some (match dict_get kvs (py "result") with
                     | Some v => v
                     | None => default (JStr []) (dict_get kvs (py "response"))
                     end))
              (Some (default (JInt 0) (dict_get kvs (py "cost_usd"))))
              (Some (default (JStr []) (dict_get kvs (py "error"))))
              None
        | Some data => mk_invocation (JBool true) (Some (JStr (py_str_json data))) (Some (JInt 0)) None None
        end
  | TimeoutExpired =>
      mk_invocation (JBool false) None None
        (Some (JStr (zh_timeout_pre ++ py (pretty timeout) ++ zh_timeout_post))) None
  | FileNotFound =>
      mk_invocation (JBool false) None None (Some (JStr (zh_cli_missing ++ claude_path))) None
  | RunError msg =>
      mk_invocation (JBool false) None None (Some (JStr (zh_call_failed ++ msg))) None
  end.

End CallSync.

(* ------------------------------------------------------------------ *)
(** ** OneBot client: sending (onebot_client.py, [OneBotClient.send]) *)

(** An open or closed WebSocket handle with the frames written to it. *)
Record websocket := mk_websocket {
  closed : bool;
  frames : list pystr
}.

Record onebot_client := mk_client {
  ws : option websocket;    (* [self.websocket] *)
  connected : bool          (* [self.connected] *)
}.

(** Exceptions leaving [send]. *)
Inductive send_error :=
  | ConnectionError (msg : pystr)
  | SerializeError (msg : pystr)   (* raised by [json.dumps] *)
  | SocketError (msg : pystr).     (* raised by [await self.websocket.send] *)

(** "WebSocket未连接" *)
Definition ws_not_connected : pystr := py "WebSocket" ++ [26410; 36830; 25509]%N.

(** [is_connected()]: [self.connected and self.websocket and not self.websocket.closed]. *)
Definition is_connected (c : onebot_client) : bool :=
  connected c && match ws c with Some w => negb (closed w) | None => false end.

(** [await send(data)]: [json_dumps] is [json.dumps(data, ensure_ascii=False)]
    ([inr] its exception message); [socket_error] is the exception, if any, of
    the socket write. The result is the new client and, on [inl], the
    exception raised. *)
Definition send (c : onebot_client) (json_dumps : json -> pystr + pystr) (data : json)
    (socket_error : option pystr) : onebot_client * option send_error :=
  match ws c with
  | None => (c, Some (ConnectionError ws_not_connected))
  | Some w =>
      if closed w then (c, Some (ConnectionError ws_not_connected))
      else
        match json_dumps data with
        | inr e => (mk_client (Some w) false, Some (SerializeError e))
        | inl message =>
            match socket_error with
            | Some e => (mk_client (Some w) false, Some (SocketError e))
            | None => (mk_client (Some (mk_websocket false (frames w ++ [message]))) (connected c), None)
            end
        end
  end.

(* ------------------------------------------------------------------ *)
(** ** Bot: liveness supervisor (bot.py, [Bot._heartbeat_loop],
    [Bot._test_connection], [Bot._handle_disconnect], [Bot._handle_reconnect]) *)

(** The status dict passed to the status callbacks (its timestamp left out). *)
Record status := mk_status {
  st_online : bool;
  st_connection_failures : Z
}.

(** The supervisor's part of a [Bot]: the status callbacks are recorded by the
    statuses they were called with, oldest first. *)
Record supervisor := mk_supervisor {
  online_status : bool;
  connection_failures : Z;
  max_connection_failures : Z;
  notified : list status
}.

(** [_notify_status_change()] *)
Definition notify_status_change (b : supervisor) : supervisor :=
  mk_supervisor (online_status b) (connection_failures b) (max_connection_failures b)
    (notified b ++ [mk_status (online_status b) (connection_failures b)]).

Definition set_online (b : supervisor) (online : bool) : supervisor :=
  mk_supervisor online (connection_failures b) (max_connection_failures b) (notified b).

Definition set_failures (b : supervisor) (n : Z) : supervisor :=
  mk_supervisor (online_status b) n (max_connection_failures b) (notified b).

(** [_handle_disconnect(reason)] *)
Definition handle_disconnect (b : supervisor) : supervisor :=
  if online_status b then notify_status_change (set_online b false) else b.

(** [_handle_reconnect()] *)
Definition handle_reconnect (b : supervisor) : supervisor :=
  if negb (online_status b)
  then notify_status_change (set_failures (set_online b true) 0)
  else b.

(** [await self._test_connection()]: [ping_ok] says whether
    [await self.client.websocket.ping()] completes; its exceptions, like the
    [ConnectionError] of a missing or closed handle, are caught there. *)
Definition test_connection (c : onebot_client) (ping_ok : bool) (b : supervisor) : supervisor :=
  let probe_ok :=
    match ws c with
    | Some w => negb (closed w) && ping_ok
    | None => false
    end in
  if probe_ok then
    (if (0 <? connection_failures b)%Z then set_failures b 0 else b)
  else
    let b1 := set_failures b (connection_failures b + 1) in
    if (max_connection_failures b1 <=? connection_failures b1)%Z then handle_disconnect b1 else b1.

(** One iteration of [_heartbeat_loop] after its sleep: the client as it is
    then, and whether the ping completes. *)
Definition heartbeat_iteration (b : supervisor) (probe : onebot_client * bool) : supervisor :=
  let '(c, ping_ok) := probe in
  if negb (is_connected c) then handle_disconnect b
  else
    let b1 := test_connection c ping_ok b in
    if (0 <? connection_failures b1)%Z then handle_reconnect b1 else b1.

(** Successive iterations. *)
Definition heartbeat_run (b : supervisor) (probes : list (onebot_client * bool)) : supervisor :=
  fold_left heartbeat_iteration probes b.

(** A live session: [connected] set and an open handle. *)
Definition live_client : onebot_client := mk_client (Some (mk_websocket false [])) true.

(* ------------------------------------------------------------------ *)
(** ** Bot: in-flight conversations (bot.py, [Bot.on_message]) *)

(** The fields of an inbound OneBot event that [on_message] reads. *)
Record event := mk_event {
  post_type : option pystr;
  message_type : option pystr;
  user_id : option Z;
  group_id : option Z
}.

(** [f"{x}"] of an optional int. *)
Definition py_str_int_opt (x : option Z) : pystr :=
  match x with Some z => py (pretty z) | None => py "None" end.

(** [f"{message_type}_{user_id}_{group_id or 'private'}"] *)
Definition message_id (data : event) : pystr :=
  py_str_opt (message_type data) ++ py "_" ++ py_str_int_opt (user_id data) ++ py "_" ++
  match group_id data with
  | Some g => if (g =? 0)%Z then py "private" else py (pretty g)
  | None => py "private"
  end.

(** The synchronous prefix of [on_message], up to its first [await]: the
    check and the insertion into [processing_messages] happen with no
    suspension between them. [Some k]: the event is accepted under key [k]. *)
Definition on_message_enter (processing_messages : gset pystr) (data : event)
    : gset pystr * option pystr :=
  if negb (bool_decide (post_type data = Some (py "message"))) then (processing_messages, None)
  else
    let k := message_id data in
    if bool_decide (k ∈ processing_messages) then (processing_messages, None)
    else ({[k]} ∪ processing_messages, Some k).

(** The [finally] clause: [processing_messages.discard(message_id)]. *)
Definition on_message_exit (processing_messages : gset pystr) (k : pystr) : gset pystr :=
  processing_messages ∖ {[k]}.

(** How a handler coroutine ends. *)
Inductive exit_kind :=
  | Normal
  | RaisedError     (* an [Exception] *)
  | Cancelled.      (* [asyncio.CancelledError], not an [Exception] *)

Section OnMessage.

(** The effects of the handlers (replies, Claude invocations). *)
Variable E : Type.
(** [handle_private_message] and [handle_group_message], run with the
    in-flight set as it is when they start. *)
Variables handle_private_message handle_group_message : gset pystr -> event -> list E * exit_kind.

Definition dispatch (processing_messages : gset pystr) (data : event) : list E * exit_kind :=
  if bool_decide (message_type data = Some (py "private"))
  then handle_private_message processing_messages data
  else if bool_decide (message_type data = Some (py "group"))
  then handle_group_message processing_messages data
  else ([], Normal).

(** [await on_message(data)] run to completion: the new in-flight set, the
    handler's effects, and how [on_message] ends ([except Exception] turns an
    error into a normal return; a cancellation propagates). *)
Definition on_message (processing_messages : gset pystr) (data : event)
    : gset pystr * list E * exit_kind :=
  match on_message_enter processing_messages data with
  | (s, None) => (s, [], Normal)
  | (s, Some k) =>
      let '(effs, ex) := dispatch s data in
      (on_message_exit s k, effs, match ex with RaisedError => Normal | _ => ex end)
  end.

End OnMessage.

(** Interleaved processing: the in-flight set and the keys of the
    [on_message] calls that were accepted and have not finished. *)
Record scheduler := mk_scheduler {
  inflight : gset pystr;
  running : list pystr
}.

(** An event arrives (the synchronous prefix of [on_message] runs), or a
    running call finishes in any way (its [finally] runs). *)
Inductive step : scheduler -> scheduler -> Prop :=
  | step_arrive st data :
      step st (mk_scheduler (on_message_enter (inflight st) data).1
                            (match (on_message_enter (inflight st) data).2 with
                             | Some k => k :: running st
                             | None => running st
                             end))
  | step_finish st r1 k r2 :
      running st = r1 ++ k :: r2 ->
      step st (mk_scheduler (on_message_exit (inflight st) k) (r1 ++ r2)).

Definition scheduler_init : scheduler := mk_scheduler ∅ [].

(* ------------------------------------------------------------------ *)
(** ** Bot: message text and handlers (bot.py, [Bot.extract_message_text],
    [Bot.handle_private_message], [Bot.handle_group_message],
    [Bot.handle_command], [Bot.send_error]) *)

(** The text a segment adds in [extract_message_text]: [None] is the exception
    raised ([AttributeError] of [.get] on a non-dict, [TypeError] of
    [text += t] on a non-string [t]). *)
Definition segment_text (segment : json) : option pystr :=
  match segment with
  | JObj kvs =>
      if match dict_get kvs (py "type") with
         | Some (JStr t) => bool_decide (t = py "text")
         | _ => false
         end then
        match default (JObj []) (dict_get kvs (py "data")) with
        | JObj d =>
            match default (JStr []) (dict_get d (py "text")) with
            | JStr t => Some t
            | _ => None
            end
        | _ => None
        end
      else Some []
  | _ => None
  end.

(** [for segment in message_data: ...] with the text gathered so far. *)
Fixpoint extract_loop (text : pystr) (segments : list json) : option pystr :=
  match segments with
  | [] => Some text
  | segment :: rest =>
      match segment_text segment with
      | Some t => extract_loop (text ++ t) rest
      | None => None
      end
  end.

(** [extract_message_text(message_data)]. Iterating a string or a dict yields
    strings, which have no [.get]; other scalars are not iterable. *)
Definition extract_message_text (message_data : json) : option pystr :=
  match message_data with
  | JArr segments => option_map py_strip (extract_loop [] segments)
  | JStr [] | JObj [] => Some []
  | _ => None
  end.

(** The settings [Bot.__init__] reads from [bot_config] that the handlers use
    (the two flags by their truthiness). *)
Record bot_settings := mk_bot_settings {
  command_prefixes : list pystr;
  auto_reply_private : bool;
  ignore_temp_session : bool
}.

(** The fields of a message event that the handlers read besides those of
    [event]: [sub_type], [message] and [to_me], [None] when absent. *)
Record message_data := mk_message_data {
  md_event : event;
  sub_type : option json;
  message : option json;
  to_me : option json
}.

(** What a handler awaits: a message sent through the client, or a Claude
    reply ([reply_to_user] / [reply_to_group]) to a prompt. *)
Inductive bot_action :=
  | SendPrivateMessage (user_id : option Z) (text : pystr)
  | SendGroupMessage (group_id : option Z) (text : pystr)
  | ReplyToUser (user_id : option Z) (prompt : pystr)
  | ReplyToGroup (group_id : option Z) (prompt : pystr).

(** "[错误] " and "请输入问题，例如：/c 解释一下这段代码" *)
Definition zh_error_tag : pystr := [91; 38169; 35823; 93; 32]%N.
Definition zh_usage : pystr :=
  [35831; 36755; 20837; 38382; 39064; 65292; 20363; 22914; 65306]%N ++ py "/c " ++
  [35299; 37322; 19968; 19979; 36825; 27573; 20195; 30721]%N.

(** [send_error(data, error_msg)] *)
Definition send_error_actions (data : message_data) (error_msg : pystr) : list bot_action :=
  if bool_decide (message_type (md_event data) = Some (py "private"))
  then [SendPrivateMessage (user_id (md_event data)) (zh_error_tag ++ error_msg)]
  else if bool_decide (message_type (md_event data) = Some (py "group"))
  then [SendGroupMessage (group_id (md_event data)) (zh_error_tag ++ error_msg)]
  else [].

(** [handle_command(data, message)] *)
Definition handle_command (s : bot_settings) (data : message_data) (msg : pystr) : list bot_action :=
  let actual_message := strip_command_prefix (command_prefixes s) msg in
  if bool_decide (py_strip actual_message = []) then send_error_actions data zh_usage
  else if bool_decide (message_type (md_event data) = Some (py "private"))
  then [ReplyToUser (user_id (md_event data)) actual_message]
  else if bool_decide (message_type (md_event data) = Some (py "group"))
  then [ReplyToGroup (group_id (md_event data)) actual_message]
  else [].

(** [sub_type != 'friend'] *)
Definition not_friend (sub_type : json) : bool :=
  match sub_type with JStr t => negb (bool_decide (t = py "friend")) | _ => true end.

(** [handle_private_message(data)]: [None] is an exception of
    [extract_message_text]. *)
Definition handle_private_message (s : bot_settings) (data : message_data) : option (list bot_action) :=
  match extract_message_text (default (JArr []) (message data)) with
  | None => None
  | Some msg =>
      if ignore_temp_session s && not_friend (default (JStr []) (sub_type data)) then Some []
      else if is_command (command_prefixes s) msg then Some (handle_command s data msg)
      else if auto_reply_private s then Some [ReplyToUser (user_id (md_event data)) msg]
      else Some []
  end.

(** [handle_group_message(data)] *)
Definition handle_group_message (s : bot_settings) (data : message_data) : option (list bot_action) :=
  match extract_message_text (default (JArr []) (message data)) with
  | None => None
  | Some msg =>
      if negb (truthy (default (JBool false) (to_me data))) then Some []
      else if bool_decide (py_strip msg = []) then Some []
      else if is_command (command_prefixes s) msg then Some (handle_command s data msg)
      else Some [ReplyToGroup (group_id (md_event data)) msg]
  end.

(* ------------------------------------------------------------------ *)
(** ** Configuration (config.py, [Config.get], [Config.set]) *)

(** [key.split('.')] *)
Fixpoint split_dot (key : pystr) : list pystr :=
  match key with
  | [] => [[]]
  | c :: rest =>
      let parts := split_dot rest in
      if (c =? 46)%N then [] :: parts
      else match parts with
           | p :: ps => (c :: p) :: ps
           | [] => [[c]]
           end
  end.

(** [d[k] = v] on a dict: an existing key keeps its place, a new key goes last. *)
Definition dict_set (kvs : list (pystr * json)) (k : pystr) (v : json) : list (pystr * json) :=
  match dict_get kvs k with
  | None => kvs ++ [(k, v)]
  | Some _ => map (fun '(k', v') => if decide (k' = k) then (k', v) else (k', v')) kvs
  end.

(** The loop of [get]: [isinstance(value, dict) and k in value]. *)
Fixpoint get_path (value : json) (keys : list pystr) (default : json) : json :=
  match keys with
  | [] => value
  | k :: ks =>
      match value with
      | JObj kvs =>
          match dict_get kvs k with
          | Some v => get_path v ks default
          | None => default
          end
      | _ => default
      end
  end.

(** [config.get(key, default)]; the loaded YAML document is [None] or a value
    with string keys. *)
Definition config_get (config : option json) (key : pystr) (default : json) : json :=
  match config with
  | None => default
  | Some c => get_path c (split_dot key) default
  end.

(** The loop of [set] from [config] along [keys], then
    [config[keys[-1]] = value]. [None] is the exception raised when a step
    meets a value that is not a dict ([in] or item assignment on it). A step
    never fails after a missing key was filled with [{}], so nothing has been
    changed when it fails. The sub-dicts of the document are assumed not to be
    shared (no YAML aliases), so updating one is seen at one place only. *)
Fixpoint set_path (config : json) (keys : list pystr) (value : json) : option json :=
  match keys with
  | [] => None
  | [k] =>
      match config with
      | JObj kvs => Some (JObj (dict_set kvs k value))
      | _ => None
      end
  | k :: ks =>
      match config with
      | JObj kvs =>
          match set_path (default (JObj []) (dict_get kvs k)) ks value with
          | Some inner => Some (JObj (dict_set kvs k inner))
          | None => None
          end
      | _ => None
      end
  end.

(** [config.set(key, value)]: the new document, [None] for an exception. *)
Definition config_set (config : option json) (key : pystr) (value : json) : option json :=
  set_path (default (JObj []) config) (split_dot key) value.

(* ------------------------------------------------------------------ *)
(** ** OneBot client: messages and disconnection (onebot_client.py,
    [OneBotClient.send_private_message], [OneBotClient.send_group_message],
    [OneBotClient.disconnect]) *)

(** An optional int as JSON ([None] is [null]). *)
Definition int_opt_json (x : option Z) : json :=
  match x with Some z => JInt z | None => JNull end.

Definition send_private_msg_payload (user_id : option Z) (msg : pystr) : json :=
  JObj [(py "action", JStr (py "send_private_msg"));
        (py "params", JObj [(py "user_id", int_opt_json user_id); (py "message", JStr msg)])].

Definition send_group_msg_payload (group_id : option Z) (msg : pystr) : json :=
  JObj [(py "action", JStr (py "send_group_msg"));
        (py "params", JObj [(py "group_id", int_opt_json group_id); (py "message", JStr msg)])].

(** [await send_private_message(user_id, message)] *)
Definition send_private_message (c : onebot_client) (json_dumps : json -> pystr + pystr)
    (user_id : option Z) (msg : pystr) (socket_error : option pystr) : onebot_client * option send_error :=
  send c json_dumps (send_private_msg_payload user_id msg) socket_error.

(** [await send_group_message(group_id, message)] *)
Definition send_group_message (c : onebot_client) (json_dumps : json -> pystr + pystr)
    (group_id : option Z) (msg : pystr) (socket_error : option pystr) : onebot_client * option send_error :=
  send c json_dumps (send_group_msg_payload group_id msg) socket_error.

(** The effects of [send_long_message(send_func, ...)] run against the client,
    [send_func(msg)] being a send that returns the new client and the
    exception it raised, if any: the first exception ends the run. *)
Fixpoint deliver (c : onebot_client)
    (send_func : onebot_client -> pystr -> onebot_client * option send_error)
    (effs : list effect) : onebot_client * option send_error :=
  match effs with
  | [] => (c, None)
  | Send msg :: rest =>
      match send_func c msg with
      | (c', Some e) => (c', Some e)
      | (c', None) => deliver c' send_func rest
      end
  | Sleep _ :: rest => deliver c send_func rest
  end.

(** [await disconnect()], the close of the handle completing (the [running]
    flag and the heartbeat task are not modelled). *)
Definition disconnect (c : onebot_client) : onebot_client :=
  mk_client (option_map (fun w => mk_websocket true (frames w)) (ws c)) false.

(* ------------------------------------------------------------------ *)
(** ** Bot: status (bot.py, [Bot.get_status]) *)

(** The value of [is_connected()]: Python's [and] returns its first false
    operand, so a missing handle gives [None]. *)
Definition is_connected_value (c : onebot_client) : json :=
  if negb (connected c) then JBool false
  else match ws c with Some w => JBool (negb (closed w)) | None => JNull end.

(** The dict [get_status()] returns. *)
Record bot_status := mk_bot_status {
  bs_online : bool;
  bs_connection_failures : Z;
  bs_heartbeat_interval : json;
  bs_client_connected : json;
  bs_message_count : nat;
  bs_heartbeat_enabled : json
}.

Definition get_status (b : supervisor) (heartbeat_interval heartbeat_enabled : json)
    (c : onebot_client) (processing_messages : gset pystr) : bot_status :=
  mk_bot_status (online_status b) (connection_failures b) heartbeat_interval
    (is_connected_value c) (size processing_messages) heartbeat_enabled.

(* ------------------------------------------------------------------ *)
(** ** Claude handler: locating the CLI (claude_handler.py, [ClaudeHandler._find_claude_cli]) *)

Section FindCli.

(** [Path(p).exists()], [shutil.which("claude")] and [os.path.expanduser]. *)
Variable path_exists : pystr -> bool.
Variable which_claude : option pystr.
Variable expanduser : pystr -> pystr.

Definition common_paths : list pystr :=
  [expanduser (py "~/AppData/Roaming/npm/claude.cmd");
   expanduser (py "~/.npm-global/bin/claude");
   py "/usr/local/bin/claude"].

Definition find_claude_cli (cli_path : pystr) : option pystr :=
  if negb (bool_decide (cli_path = py "claude")) && path_exists cli_path then Some cli_path
  else
    match which_claude with
    | Some p => if bool_decide (p = []) then find path_exists common_paths else Some p
    | None => find path_exists common_paths
    end.

End FindCli.

(** The statuses notified since a start in status [prev], each the opposite
    of the one before, the last one (or [prev]) being [final]. *)
Fixpoint alternating_from (prev : bool) (notified : list status) (final : bool) : Prop :=
  match notified with
  | [] => final = prev
  | s :: rest => st_online s = negb prev /\ alternating_from (st_online s) rest final
  end.

(** The supervisor invariant: a non-negative failure count and alternating
    notifications since the initial Online state. *)
Definition supervisor_ok (b : supervisor) : Prop :=
  (0 <= connection_failures b)%Z /\ alternating_from true (notified b) (online_status b).

(* ================================================================== *)
(** * Properties *)

Example strip_claude_hi :
  strip_command_prefix default_command_prefixes (py "/claude hi") = py "laude hi".
Proof. reflexivity. Qed.

Lemma range_from_chunks (msg : pystr) (m : nat) (Hm : (0 < m)%nat) :
  forall fuel i, (length msg - i <= fuel)%nat ->
  map (fun j => slice msg j (j + m)) (range_from fuel i (length msg) m)
  = split_every fuel m (drop i msg).
Proof.
  induction fuel as [|fuel IH]; intros i Hf; simpl.
  - destruct (drop i msg) eqn:E; [reflexivity|].
    apply (f_equal length) in E. rewrite length_drop in E. simpl in E. lia.
  - destruct (Nat.ltb_spec i (length msg)) as [Hi|Hi].
    + destruct (drop i msg) as [|c r] eqn:E.
      { apply (f_equal length) in E. rewrite length_drop in E. simpl in E. lia. }
      simpl. unfold slice at 1. replace (i + m - i)%nat with m by lia.
      rewrite E. f_equal. rewrite <- E, drop_drop. apply IH. lia.
    + replace (drop i msg) with (@nil N); [destruct fuel; reflexivity|].
      symmetry. apply nil_length_inv. rewrite length_drop. lia.
Qed.

Lemma split_every_nil fuel m : split_every fuel m [] = [].
Proof. destruct fuel; reflexivity. Qed.

Lemma split_every_concat m (Hm : (0 < m)%nat) :
  forall fuel l, (length l <= fuel)%nat -> concat (split_every fuel m l) = l.
Proof.
  induction fuel as [|fuel IH]; intros l Hl.
  - destruct l; [reflexivity|simpl in Hl; lia].
  - destruct l as [|c r]; [reflexivity|].
    cbn [split_every concat]. rewrite IH.
    + apply take_drop.
    + rewrite length_drop. simpl in *. lia.
Qed.

Lemma split_every_shape m (Hm : (0 < m)%nat) :
  forall fuel l, l <> [] -> (length l <= fuel)%nat ->
  exists cs last, split_every fuel m l = cs ++ [last] /\
    Forall (fun c => length c = m) cs /\ (0 < length last <= m)%nat.
Proof.
  induction fuel as [|fuel IH]; intros l Hne Hl.
  - destruct l; [congruence|simpl in Hl; lia].
  - destruct l as [|c r]; [congruence|].
    cbn [split_every].
    destruct (drop m (c :: r)) as [|d r'] eqn:E.
    + rewrite split_every_nil. exists [], (take m (c :: r)).
      split; [reflexivity|]. split; [constructor|].
      rewrite length_take. simpl. lia.
    + destruct (IH (d :: r')) as (cs & last & Hs & Hf & Hlast); [congruence| |].
      { rewrite <- E, length_drop. simpl in *. lia. }
      exists (take m (c :: r) :: cs), last. rewrite Hs.
      split; [reflexivity|]. split; [|exact Hlast].
      constructor; [|exact Hf].
      apply (f_equal length) in E. rewrite length_drop in E. simpl in E.
      rewrite length_take. simpl. lia.
Qed.

Lemma send_long_message_chunks msg m (Hm : (0 < m)%nat) (Hlen : (m < length msg)%nat) :
  send_long_message msg m =
  Some (flat_map (fun c => [Send c; Sleep (1 # 2)]) (split_every (length msg) m msg)).
Proof.
  unfold send_long_message.
  destruct (Nat.leb_spec (length msg) m); [lia|].
  destruct (Nat.eqb_spec m 0); [lia|].
  f_equal. unfold py_range.
  pose proof (range_from_chunks msg m Hm (length msg) 0 ltac:(lia)) as Hc.
  rewrite drop_0 in Hc. rewrite <- Hc. clear. generalize (range_from (length msg) 0 (length msg) m).
  induction l; simpl; [reflexivity|]. now rewrite IHl.
Qed.

Lemma split_every_cons fuel m (l : pystr) :
  l <> [] -> split_every (S fuel) m l = take m l :: split_every fuel m (drop m l).
Proof. destruct l; [congruence|reflexivity]. Qed.

Lemma send_long_message_4500 (msg : pystr) (Hlen : length msg = 4500%nat) :
  send_long_message msg 2000 =
  Some [Send (take 2000 msg); Sleep (1 # 2); Send (take 2000 (drop 2000 msg)); Sleep (1 # 2);
        Send (take 2000 (drop 4000 msg)); Sleep (1 # 2)] /\
  length (take 2000 msg) = 2000%nat /\ length (take 2000 (drop 2000 msg)) = 2000%nat /\
  length (take 2000 (drop 4000 msg)) = 500%nat.
Proof.
  assert (Hne : forall k, (k < 4500)%nat -> drop k msg <> []).
  { intros k Hk E. apply (f_equal length) in E. rewrite length_drop in E. simpl in E. lia. }
  split; [|rewrite !length_take, !length_drop; lia].
  rewrite send_long_message_chunks by lia. rewrite Hlen.
  rewrite split_every_cons by (rewrite <- (drop_0 msg); apply Hne; lia).
  rewrite split_every_cons by (apply Hne; lia).
  rewrite drop_drop.
  rewrite split_every_cons by (apply Hne; lia).
  rewrite drop_drop.
  replace (drop (2000 + 2000 + 2000) msg) with (@nil N).
  - rewrite split_every_nil. reflexivity.
  - symmetry. apply nil_length_inv. rewrite length_drop. lia.
Qed.

Lemma take3_concat {A} (l : list A) n :
  (length l <= n + n + n)%nat -> take n l ++ take n (drop n l) ++ take n (drop (n + n) l) = l.
Proof.
  intros Hl. rewrite (take_ge (drop (n + n) l)) by (rewrite length_drop; lia).
  rewrite <- drop_drop, !take_drop. reflexivity.
Qed.

(** C7: [send_long_message] with the default chunk size 2000 sends a reply of
    at most 2000 code points as one message with no delay. A longer reply is
    sent as consecutive chunks, in order, of exactly 2000 code points except a
    final non-empty chunk of at most 2000, each chunk followed by a 0.5 s
    sleep; the chunks concatenate back to the reply. A 4500-code-point reply
    is sent as chunks of 2000, 2000 and 500 code points. *)
Theorem send_long_message_chunking (msg : pystr) :
  ((length msg <= 2000)%nat -> send_long_message msg 2000 = Some [Send msg]) /\
  ((2000 < length msg)%nat ->
     exists cs last,
       send_long_message msg 2000 =
         Some (flat_map (fun c => [Send c; Sleep (1 # 2)]) (cs ++ [last])) /\
       Forall (fun c => length c = 2000%nat) cs /\ (0 < length last <= 2000)%nat /\
       concat (cs ++ [last]) = msg) /\
  (length msg = 4500%nat ->
     send_long_message msg 2000 =
       Some [Send (take 2000 msg); Sleep (1 # 2); Send (take 2000 (drop 2000 msg)); Sleep (1 # 2);
             Send (take 2000 (drop 4000 msg)); Sleep (1 # 2)] /\
     length (take 2000 msg) = 2000%nat /\ length (take 2000 (drop 2000 msg)) = 2000%nat /\
     length (take 2000 (drop 4000 msg)) = 500%nat /\
     take 2000 msg ++ take 2000 (drop 2000 msg) ++ take 2000 (drop 4000 msg) = msg).
Proof.
  split; [|split].
  - intros H. unfold send_long_message.
    destruct (Nat.leb_spec (length msg) 2000); [reflexivity|lia].
  - intros H.
    destruct (split_every_shape 2000 ltac:(lia) (length msg) msg) as (cs & last & Hs & Hf & Hl).
    { intros E. subst. simpl in H. lia. }
    { lia. }
    exists cs, last. rewrite <- Hs. split; [|split; [exact Hf|split; [exact Hl|]]].
    + apply send_long_message_chunks; lia.
    + apply split_every_concat; lia.
  - intros H. destruct (send_long_message_4500 msg H) as (? & ? & ? & ?).
    repeat split; try assumption.
    change 4000%nat with (2000 + 2000)%nat.
    apply take3_concat. lia.
Qed.

Lemma py_min_Qmin a b : py_min a b == Qmin a b.
Proof.
  unfold py_min. destruct (Qle_bool a b) eqn:E.
  - apply Qle_bool_iff in E. symmetry. apply Q.min_l. exact E.
  - symmetry. apply Q.min_r.
    destruct (Qlt_le_dec b a) as [H|H]; [apply Qlt_le_weak; exact H|].
    apply Qle_bool_iff in H. congruence.
Qed.

(** C4 (counterexample): with a float [initial_backoff], attempt 1025 makes
    [2 ** 1024] too large for a float and [_calculate_backoff] raises
    [OverflowError], where the formula gives [min(2^1024, 60) = 60]. *)
Lemma calculate_backoff_overflow_1025 :
  calculate_backoff 1 60 1025 = None /\ spec_delay 1 60 1025 == 60.
Proof. split; vm_compute; reflexivity. Qed.

Lemma calculate_backoff_cap (n : Z) (Hn : (7 <= n <= 1024)%Z) :
  calculate_backoff 1 60 n = Some 60%Q.
Proof.
  unfold calculate_backoff.
  destruct (Z.ltb_spec (n - 1) 0); [lia|].
  destruct (Z.leb_spec 1024 (n - 1)); [lia|].
  f_equal. unfold py_min.
  destruct (Qle_bool _ _) eqn:E; [|reflexivity].
  apply Qle_bool_iff in E. unfold Qle in E. simpl in E.
  assert (2 ^ 6 <= 2 ^ (n - 1))%Z by (apply Z.pow_le_mono_r; lia).
  lia.
Qed.

(** C4 (amended): for every attempt [1 <= n <= 1024],
    [_calculate_backoff(n) = min(initial_backoff * 2^(n-1), max_backoff)];
    from attempt 1025 on it raises [OverflowError]. With [initial_backoff = 1.0]
    and [max_backoff = 60.0], attempts 1..9 give 1, 2, 4, 8, 16, 32, 60, 60, 60,
    and every attempt from 7 to 1024 gives the cap 60. *)
Theorem calculate_backoff_formula :
  (forall initial_backoff max_backoff (n : nat), (1 <= n <= 1024)%nat ->
     exists d, calculate_backoff initial_backoff max_backoff (Z.of_nat n) = Some d /\
               d == spec_delay initial_backoff max_backoff n) /\
  (forall initial_backoff max_backoff (n : nat), (1025 <= n)%nat ->
     calculate_backoff initial_backoff max_backoff (Z.of_nat n) = None) /\
  map (calculate_backoff 1 60) [1; 2; 3; 4; 5; 6; 7; 8; 9]%Z =
    map Some [1; 2; 4; 8; 16; 32; 60; 60; 60]%Q /\
  (forall n, (7 <= n <= 1024)%Z -> calculate_backoff 1 60 n = Some 60%Q).
Proof.
  split; [|split; [|split]].
  - intros i m n Hn. unfold calculate_backoff, spec_delay.
    destruct (Z.ltb_spec (Z.of_nat n - 1) 0); [lia|].
    destruct (Z.leb_spec 1024 (Z.of_nat n - 1)); [lia|].
    eexists; split; [reflexivity|].
    rewrite py_min_Qmin. rewrite Nat2Z.inj_sub by lia. reflexivity.
  - intros i m n Hn. unfold calculate_backoff.
    destruct (Z.ltb_spec (Z.of_nat n - 1) 0); [lia|].
    destruct (Z.leb_spec 1024 (Z.of_nat n - 1)); [reflexivity|lia].
  - vm_compute. reflexivity.
  - exact calculate_backoff_cap.
Qed.


(** C3 (counterexample): with [max_retries = 3] and every attempt failing with
    "connection reset", [call] returns the third attempt's own failure with
    [retries = 2]: its error does not name the retry count, and [retries] is
    not 3. *)
Lemma call_all_retryable_failures_3 :
  call ascii_lower (fun _ => Returned (failed_with (py "connection reset")))
       (mk_handler 3 1 60) true
  = (CallReturn (set_retries (failed_with (py "connection reset")) 2%Z), [Sleep 1%Q; Sleep 2%Q])
  /\ retries (set_retries (failed_with (py "connection reset")) 2%Z) <> Some 3%Z.
Proof. split; [vm_compute; reflexivity|discriminate]. Qed.

Lemma calculate_backoff_some ib mb (a : Z) :
  (1 <= a <= 1024)%Z -> exists b, calculate_backoff ib mb a = Some b.
Proof.
  intros Ha. unfold calculate_backoff.
  destruct (Z.ltb_spec (a - 1) 0); [lia|].
  destruct (Z.leb_spec 1024 (a - 1)); [lia|]. eauto.
Qed.

Lemma call_loop_retry_prefix py_lower invoke h :
  forall k a fuel le,
    (1 <= a)%Z -> (a + Z.of_nat k <= max_retries h)%Z -> (a + Z.of_nat k <= 1025)%Z ->
    fuel = Z.to_nat (max_retries h - a + 1) ->
    (forall j, (a <= j < a + Z.of_nat k)%Z -> retryable_failure py_lower (invoke j)) ->
    exists le' ds,
      map Some ds = map (calculate_backoff (initial_backoff h) (max_backoff h)) (zrange a k) /\
      call_loop py_lower invoke h fuel a le =
        (fst (call_loop py_lower invoke h (fuel - k) (a + Z.of_nat k) le'),
         map Sleep ds ++ snd (call_loop py_lower invoke h (fuel - k) (a + Z.of_nat k) le')).
Proof.
  induction k as [|k IH]; intros a fuel le Ha Hmax H1025 Hfuel Hfail.
  - exists le, []. split; [reflexivity|].
    rewrite Nat.sub_0_r, Z.add_0_r. destruct (call_loop _ _ _ _ _ _); reflexivity.
  - destruct fuel as [|fuel]; [lia|].
    destruct (calculate_backoff_some (initial_backoff h) (max_backoff h) a) as [b Hb]; [lia|].
    assert (Hlt : (a <? max_retries h)%Z = true) by (apply Z.ltb_lt; lia).
    assert (Hrec : forall le0, exists le' ds,
      map Some ds = map (calculate_backoff (initial_backoff h) (max_backoff h)) (zrange (a + 1) k) /\
      call_loop py_lower invoke h fuel (a + 1) le0 =
        (fst (call_loop py_lower invoke h (fuel - k) (a + 1 + Z.of_nat k) le'),
         map Sleep ds ++ snd (call_loop py_lower invoke h (fuel - k) (a + 1 + Z.of_nat k) le'))).
    { intros le0. apply IH; try lia. intros j Hj. apply Hfail. lia. }
    assert (Hend : (a + 1 + Z.of_nat k = a + Z.of_nat (S k))%Z) by lia.
    specialize (Hfail a ltac:(lia)).
    cbn [call_loop]. simpl (S fuel - S k)%nat.
    destruct (invoke a) as [r|msg] eqn:Ei; simpl in Hfail.
    + destruct Hfail as (Hs & s & He & Hr).
      rewrite Hs, He, Hlt. simpl. rewrite Hr, Hb.
      destruct (Hrec (Some s)) as (le' & ds & Hds & Hc).
      rewrite Hc. exists le', (b :: ds). rewrite <- Hend. simpl. rewrite Hds. split; reflexivity.
    + rewrite Hlt, Hfail. simpl. rewrite Hb.
      destruct (Hrec (Some msg)) as (le' & ds & Hds & Hc).
      rewrite Hc. exists le', (b :: ds). rewrite <- Hend. simpl. rewrite Hds. split; reflexivity.
Qed.

(** C5 (amended): if attempts [1 .. n-1] fail with retryable errors and attempt
    [n] reports success, where [n <= max_retries] and [n <= 1025], [call]
    returns that success with [retries = n - 1], having slept
    [delay(1), ..., delay(n-1)] in that order. *)
Theorem call_success_after_retryable_failures py_lower invoke h (n : nat) r
  (Hn : (1 <= Z.of_nat n <= max_retries h)%Z) (H1025 : (n <= 1025)%nat)
  (Hfail : forall j, (1 <= j < Z.of_nat n)%Z -> retryable_failure py_lower (invoke j))
  (Hsucc : invoke (Z.of_nat n) = Returned r) (Htruthy : truthy (success r) = true) :
  exists ds,
    call py_lower invoke h true = (CallReturn (set_retries r (Z.of_nat n - 1)), map Sleep ds) /\
    map Some ds = map (calculate_backoff (initial_backoff h) (max_backoff h)) (zrange 1 (n - 1)).
Proof.
  destruct (call_loop_retry_prefix py_lower invoke h (n - 1) 1 (Z.to_nat (max_retries h)) None)
    as (le' & ds & Hds & Hc); try lia.
  { intros j Hj. apply Hfail. lia. }
  exists ds. split; [|exact Hds].
  unfold call. rewrite Hc.
  replace (1 + Z.of_nat (n - 1))%Z with (Z.of_nat n) by lia.
  destruct (Z.to_nat (max_retries h) - (n - 1))%nat as [|fuel] eqn:Ef; [lia|].
  cbn [call_loop]. rewrite Hsucc, Htruthy. simpl. rewrite app_nil_r. reflexivity.
Qed.

(** C5 (witness): retryable failures ("connection reset") on attempts 1 and 2
    and a success on attempt 3 give [retries = 2] and the sleeps [delay(1) = 1]
    and [delay(2) = 2]. *)
Lemma call_success_after_retryable_failures_witness :
  exists ds,
    call ascii_lower
      (fun j => if (j <? 3)%Z then Returned (failed_with (py "connection reset"))
                else Returned (mk_invocation (JBool true) (Some (JStr (py "ok"))) None None None))
      (mk_handler 3 1 60) true
    = (CallReturn (set_retries (mk_invocation (JBool true) (Some (JStr (py "ok"))) None None None) 2%Z),
       map Sleep ds) /\
    map Some ds = [Some 1%Q; Some 2%Q].
Proof.
  destruct (call_success_after_retryable_failures ascii_lower
      (fun j => if (j <? 3)%Z then Returned (failed_with (py "connection reset"))
                else Returned (mk_invocation (JBool true) (Some (JStr (py "ok"))) None None None))
      (mk_handler 3 1 60) 3 (mk_invocation (JBool true) (Some (JStr (py "ok"))) None None None))
    as (ds & Hc & Hds).
  - simpl. lia.
  - lia.
  - intros j Hj. destruct (Z.ltb_spec j 3); [|lia].
    simpl. split; [reflexivity|]. eexists; split; [reflexivity|vm_compute; reflexivity].
  - reflexivity.
  - reflexivity.
  - exists ds. split; [exact Hc|]. rewrite Hds. vm_compute. reflexivity.
Defined.

(** C5 (counterexample): with [max_retries = 1026], retryable failures on
    attempts 1..1025 and a success on attempt 1026, the backoff of attempt 1025
    raises [OverflowError], which is not retryable: [call] returns the failure
    "调用异常: int too large to convert to float" with [retries = 1024] and
    never reaches attempt 1026. *)
Lemma call_success_after_1025_failures :
  fst (call ascii_lower
         (fun j => if (j <? 1026)%Z then Returned (failed_with (py "connection reset"))
                   else Returned (mk_invocation (JBool true) (Some (JStr (py "ok"))) None None None))
         (mk_handler 1026 1 60) true)
  = CallReturn (exception_result overflow_msg 1024) /\
  exception_result overflow_msg 1024
    <> set_retries (mk_invocation (JBool true) (Some (JStr (py "ok"))) None None None) 1025.
Proof. split; [vm_compute; reflexivity|discriminate]. Qed.

(** C3 (amended): when [1 <= max_retries <= 1025] and every attempt fails with
    a retryable error, [call] sleeps [delay(1), ..., delay(max_retries - 1)]
    and returns the last attempt's own failure with
    [retries = max_retries - 1]: the dict that attempt reported (its own error
    message), or, when it raised, the failure "调用异常: <message>". The
    failure "重试<max_retries>次后仍失败: <last error>" with
    [retries = max_retries] is returned only when [max_retries < 1], when no
    attempt is made and the last error is [None]. *)
Theorem call_all_retryable_failures py_lower invoke h :
  ((1 <= max_retries h <= 1025)%Z ->
   (forall j, (1 <= j <= max_retries h)%Z -> retryable_failure py_lower (invoke j)) ->
   exists ds,
     map Some ds = map (calculate_backoff (initial_backoff h) (max_backoff h))
                       (zrange 1 (Z.to_nat (max_retries h) - 1)) /\
     call py_lower invoke h true =
       (CallReturn (match invoke (max_retries h) with
                    | Returned r => set_retries r (max_retries h - 1)
                    | Raised msg => exception_result msg (max_retries h - 1)
                    end),
        map Sleep ds)) /\
  ((max_retries h < 1)%Z -> call py_lower invoke h true = (CallReturn (all_failed h None), [])).
Proof.
  split.
  - intros Hmax Hfail.
    destruct (call_loop_retry_prefix py_lower invoke h (Z.to_nat (max_retries h) - 1) 1
                (Z.to_nat (max_retries h)) None) as (le' & ds & Hds & Hc); try lia.
    { intros j Hj. apply Hfail. lia. }
    exists ds. split; [exact Hds|].
    unfold call. rewrite Hc.
    replace (1 + Z.of_nat (Z.to_nat (max_retries h) - 1))%Z with (max_retries h) by lia.
    replace (Z.to_nat (max_retries h) - (Z.to_nat (max_retries h) - 1))%nat with 1%nat by lia.
    specialize (Hfail (max_retries h) ltac:(lia)).
    assert (Hlt : (max_retries h <? max_retries h)%Z = false) by (apply Z.ltb_irrefl).
    cbn [call_loop].
    destruct (invoke (max_retries h)) as [r|msg]; simpl in Hfail.
    + destruct Hfail as (Hs & _). rewrite Hs, Hlt. simpl. rewrite app_nil_r. reflexivity.
    + rewrite Hlt. simpl. rewrite app_nil_r. reflexivity.
  - intros Hmax. unfold call.
    replace (Z.to_nat (max_retries h)) with 0%nat by lia. reflexivity.
Qed.

(** C3 (witness): three "connection reset" failures under [max_retries = 3]. *)
Lemma call_all_retryable_failures_witness :
  exists ds,
    map Some ds = [Some 1%Q; Some 2%Q] /\
    call ascii_lower (fun _ => Returned (failed_with (py "connection reset")))
         (mk_handler 3 1 60) true
    = (CallReturn (set_retries (failed_with (py "connection reset")) 2%Z), map Sleep ds).
Proof.
  destruct (proj1 (call_all_retryable_failures ascii_lower
                     (fun _ => Returned (failed_with (py "connection reset")))
                     (mk_handler 3 1 60))) as (ds & Hds & Hc).
  - simpl. lia.
  - intros j Hj. simpl. split; [reflexivity|].
    eexists; split; [reflexivity|vm_compute; reflexivity].
  - exists ds. split; [rewrite Hds; vm_compute; reflexivity|exact Hc].
Defined.

(** ** _call_sync *)

Lemma py_lstrip_nil s : py_lstrip s = [] <-> Forall (fun c => py_isspace c = true) s.
Proof.
  induction s as [|c s IH]; simpl.
  - split; constructor.
  - destruct (py_isspace c) eqn:E.
    + rewrite IH. split; [intros H; constructor; assumption|intros H; inversion H; assumption].
    + split; [discriminate|intros H; inversion H; congruence].
Qed.

Lemma py_strip_nil s : py_strip s = [] <-> Forall (fun c => py_isspace c = true) s.
Proof.
  unfold py_strip, py_rstrip. split.
  - intros H. apply (f_equal (@rev N)) in H. rewrite rev_involutive in H. simpl in H.
    apply py_lstrip_nil in H.
    destruct (py_lstrip s) as [|c r] eqn:E; [apply py_lstrip_nil; exact E|].
    exfalso.
    assert (Hc : py_isspace c = true)
      by (apply (proj1 (List.Forall_forall _ _) H); apply -> in_rev; left; reflexivity).
    clear -E Hc. induction s as [|d s IH]; simpl in E; [discriminate|].
    destruct (py_isspace d) eqn:Ed; [apply IH; exact E|]. congruence.
  - intros H. apply py_lstrip_nil in H. rewrite H. reflexivity.
Qed.

(** C8 (counterexample): [json.loads("hi")] raises [JSONDecodeError]; the
    stdout "hi\n" gives the success text "hi", not the raw stdout. *)
Lemma call_sync_plain_text_stripped :
  call_sync (fun _ => None) (fun _ => []) 300 (py "claude") (Completed (py "hi" ++ [10%N]))
  = mk_invocation (JBool true) (Some (JStr (py "hi"))) (Some (JInt 0)) None None /\
  py "hi" <> py "hi" ++ [10%N].
Proof. split; [reflexivity|discriminate]. Qed.

(** C8 (amended): for a completed CLI run, let [output] be stdout with leading
    and trailing whitespace removed. A whitespace-only stdout gives the failure
    "Claude无响应"; an [output] that [json.loads] rejects gives a success whose
    text is [output] and whose cost is 0; an [output] that parses to a JSON
    object gives success from ["success"] (default true), text from ["result"],
    else ["response"], else "", cost from ["cost_usd"] (default 0) and error
    from ["error"] (default ""). *)
Theorem call_sync_classification json_loads py_str_json timeout claude_path stdout :
  (Forall (fun c => py_isspace c = true) stdout ->
     call_sync json_loads py_str_json timeout claude_path (Completed stdout)
     = mk_invocation (JBool false) None None (Some (JStr zh_no_response)) None) /\
  (~ Forall (fun c => py_isspace c = true) stdout -> json_loads (py_strip stdout) = None ->
     call_sync json_loads py_str_json timeout claude_path (Completed stdout)
     = mk_invocation (JBool true) (Some (JStr (py_strip stdout))) (Some (JInt 0)) None None) /\
  (forall kvs, ~ Forall (fun c => py_isspace c = true) stdout ->
     json_loads (py_strip stdout) = Some (JObj kvs) ->
     let r := call_sync json_loads py_str_json timeout claude_path (Completed stdout) in
     success r = default (JBool true) (dict_get kvs (py "success")) /\
     result r = Some (match dict_get kvs (py "result") with
                      | Some v => v
                      | None => default (JStr []) (dict_get kvs (py "response"))
                      end) /\
     cost_usd r = Some (default (JInt 0) (dict_get kvs (py "cost_usd"))) /\
     error r = Some (default (JStr []) (dict_get kvs (py "error")))).
Proof.
  split; [|split].
  - intros H. simpl. apply py_strip_nil in H. rewrite H. reflexivity.
  - intros Hne Hj. simpl.
    rewrite bool_decide_false by (rewrite py_strip_nil; exact Hne).
    rewrite Hj. reflexivity.
  - intros kvs Hne Hj. simpl.
    rewrite bool_decide_false by (rewrite py_strip_nil; exact Hne).
    rewrite Hj. repeat split.
Qed.

(** ** send *)

(** C9 (counterexample): a handle that is already closed while [connected] is
    still true: [send] raises [ConnectionError] and [connected] stays true. *)
Lemma send_closed_keeps_connected :
  send (mk_client (Some (mk_websocket true [])) true) (fun _ => inl (py "{}")) (JObj []) None
  = (mk_client (Some (mk_websocket true [])) true, Some (ConnectionError ws_not_connected)) /\
  connected (mk_client (Some (mk_websocket true [])) true) = true.
Proof. split; reflexivity. Qed.

(** C9 (amended): when the handle is absent or closed, [send] raises
    [ConnectionError] and leaves the client unchanged (nothing written, the
    [connected] flag untouched; [is_connected()] is already false). Every
    other error raised out of [send] (serialization or socket write) leaves
    [connected] false. *)
Theorem send_errors c json_dumps data socket_error :
  ((ws c = None \/ exists w, ws c = Some w /\ closed w = true) ->
     send c json_dumps data socket_error = (c, Some (ConnectionError ws_not_connected)) /\
     is_connected c = false) /\
  (forall c' e, send c json_dumps data socket_error = (c', Some e) ->
     (forall m, e <> ConnectionError m) -> connected c' = false).
Proof.
  split.
  - intros [H|(w & H & Hc)]; unfold send, is_connected; rewrite H.
    + split; [reflexivity|apply andb_false_r].
    + rewrite Hc. split; [reflexivity|apply andb_false_r].
  - intros c' e Hs He. unfold send in Hs.
    destruct (ws c) as [w|]; [|inversion Hs; subst; exfalso; eapply He; reflexivity].
    destruct (closed w); [inversion Hs; subst; exfalso; eapply He; reflexivity|].
    destruct (json_dumps data); [|inversion Hs; reflexivity].
    destruct socket_error; inversion Hs; reflexivity.
Qed.

(** ** Command prefixes *)

(** C10 (counterexample): "/c hi" matches "/c"; the payload is "hi", not the
    message without the prefix (" hi"): the remainder is also stripped. *)
Lemma strip_command_prefix_strips_remainder :
  strip_command_prefix default_command_prefixes (py "/c hi") = py "hi" /\
  py "hi" <> drop (length (py "/c")) (py "/c hi").
Proof. split; [reflexivity|discriminate]. Qed.

(** C10 (amended): [strip_command_prefix] takes the first prefix in list order
    that the message starts with, removes it and strips leading and trailing
    whitespace from the rest; with no matching prefix it returns the message
    unchanged. Under the default list every message starting with "/claude"
    loses only "/c" (and the whitespace around the rest): "/claude hi" gives
    "laude hi". *)
Theorem strip_command_prefix_first_match :
  (forall prefixes msg, forallb (fun p => negb (startswith msg p)) prefixes = true ->
     strip_command_prefix prefixes msg = msg) /\
  (forall pre p post msg, forallb (fun q => negb (startswith msg q)) pre = true ->
     startswith msg p = true ->
     strip_command_prefix (pre ++ p :: post) msg = py_strip (drop (length p) msg)) /\
  (forall rest, strip_command_prefix default_command_prefixes (py "/claude" ++ rest)
                = py_strip (py "laude" ++ rest)) /\
  strip_command_prefix default_command_prefixes (py "/claude hi") = py "laude hi".
Proof.
  split; [|split; [|split]].
  - induction prefixes as [|p ps IH]; intros msg H; [reflexivity|].
    simpl in H. apply andb_true_iff in H as [Hp Hps].
    simpl. destruct (startswith msg p); [discriminate|]. apply IH. exact Hps.
  - induction pre as [|q qs IH]; intros p post msg Hpre Hp; simpl.
    + rewrite Hp. reflexivity.
    + simpl in Hpre. apply andb_true_iff in Hpre as [Hq Hqs].
      destruct (startswith msg q); [discriminate|]. apply IH; assumption.
  - intros rest. reflexivity.
  - reflexivity.
Qed.

(** ** Liveness supervisor *)

(** C2 (code bug): from Offline, an iteration whose probe succeeds leaves the
    supervisor Offline: [_test_connection] already set the failure count to 0,
    so the loop's [connection_failures > 0] test never calls
    [_handle_reconnect], and no status is notified. *)
Theorem heartbeat_success_stays_offline (b : supervisor) :
  online_status b = false -> (0 <= connection_failures b)%Z ->
  heartbeat_iteration b (live_client, true) = set_failures b 0.
Proof.
  intros Hoff Hnn. unfold heartbeat_iteration, test_connection. simpl.
  destruct (Z.ltb_spec 0 (connection_failures b)) as [H|H]; simpl.
  - reflexivity.
  - destruct (Z.ltb_spec 0 (connection_failures b)); [lia|].
    destruct b as [o n m l]; simpl in *. unfold set_failures. simpl.
    replace n with 0%Z by lia. reflexivity.
Qed.

(** C2 (witness): Offline after three failed probes, then a successful probe. *)
Lemma heartbeat_success_stays_offline_witness :
  heartbeat_iteration (mk_supervisor false 3 3 []) (live_client, true)
  = mk_supervisor false 0 3 [].
Proof.
  apply (heartbeat_success_stays_offline (mk_supervisor false 3 3 [])); simpl; [reflexivity|lia].
Defined.

(** C6 (code bug): from Online with no failure and threshold 3, three failed
    probes (the handle open, the ping raising) notify Offline exactly once, at
    the third failure; but in that same iteration the loop sees
    [connection_failures = 3 > 0], calls [_handle_reconnect], and the
    supervisor is notified and left Online with the count reset to 0. A
    failure followed by a success leaves it Online with nothing notified. *)
Theorem heartbeat_three_failures :
  heartbeat_run (mk_supervisor true 0 3 [])
    [(live_client, false); (live_client, false); (live_client, false)]
  = mk_supervisor true 0 3 [mk_status false 3; mk_status true 0] /\
  heartbeat_run (mk_supervisor true 0 3 []) [(live_client, false); (live_client, true)]
  = mk_supervisor true 0 3 [].
Proof. split; reflexivity. Qed.

(** ** In-flight conversations *)

Lemma step_preserves_inflight st st' :
  step st st' ->
  NoDup (running st) /\ (forall x, x ∈ inflight st <-> x ∈ running st) ->
  NoDup (running st') /\ (forall x, x ∈ inflight st' <-> x ∈ running st').
Proof.
  intros Hs [Hnd Hm]. destruct Hs as [st data|st r1 k r2 Hr]; simpl.
  - unfold on_message_enter.
    destruct (bool_decide (post_type data = Some (py "message"))); simpl; [|auto].
    destruct (bool_decide_reflect (message_id data ∈ inflight st)) as [Hin|Hin]; simpl; [auto|].
    split.
    + constructor; [|exact Hnd]. intros Hk. apply Hin, Hm, Hk.
    + intros x. rewrite elem_of_union, elem_of_singleton, elem_of_cons, Hm. tauto.
  - rewrite Hr in Hnd, Hm.
    rewrite <- Permutation_middle in Hnd. apply NoDup_cons in Hnd as [Hk Hnd].
    split; [exact Hnd|].
    intros x. unfold on_message_exit. rewrite elem_of_difference, elem_of_singleton, Hm.
    rewrite !elem_of_app, elem_of_cons. split.
    + intros [[H|[H|H]] Hx]; [left; exact H|contradiction|right; exact H].
    + intros H. split.
      * destruct H as [H|H]; [left; exact H|right; right; exact H].
      * intros ->. apply Hk. apply elem_of_app. exact H.
Qed.

Lemma reachable_inflight st st' :
  rtc step st st' ->
  NoDup (running st) /\ (forall x, x ∈ inflight st <-> x ∈ running st) ->
  NoDup (running st') /\ (forall x, x ∈ inflight st' <-> x ∈ running st').
Proof.
  induction 1 as [|x y z Hxy _ IH]; intros Hinv; [exact Hinv|].
  apply IH. eapply step_preserves_inflight; eassumption.
Qed.

(** C1: an event whose key [message_id] is already in flight is dropped: the
    set is unchanged, nothing is emitted and no handler runs. An accepted
    event runs its handler with its key in the set, and whatever way the
    handler ends (normally, by an error or by a cancellation) the key is
    removed, leaving the set as it was. Under any interleaving of arrivals and
    completions, the in-flight set is exactly the set of keys being processed,
    and no key is processed twice at once. *)
Theorem on_message_inflight (E : Type) handle_private_message handle_group_message :
  (forall s data, post_type data = Some (py "message") -> message_id data ∈ s ->
     on_message E handle_private_message handle_group_message s data = (s, [], Normal)) /\
  (forall s data, post_type data = Some (py "message") -> message_id data ∉ s ->
     message_id data ∈ ({[message_id data]} ∪ s) /\
     on_message E handle_private_message handle_group_message s data =
       (s,
        (dispatch E handle_private_message handle_group_message ({[message_id data]} ∪ s) data).1,
        match (dispatch E handle_private_message handle_group_message
                 ({[message_id data]} ∪ s) data).2 with
        | RaisedError => Normal
        | ex => ex
        end)) /\
  (forall st, rtc step scheduler_init st ->
     NoDup (running st) /\ (forall x, x ∈ inflight st <-> x ∈ running st)).
Proof.
  split; [|split].
  - intros s data Hp Hin. unfold on_message, on_message_enter.
    rewrite Hp, bool_decide_true by reflexivity. simpl.
    rewrite bool_decide_true by exact Hin. reflexivity.
  - intros s data Hp Hin. split; [set_solver|].
    unfold on_message, on_message_enter.
    rewrite Hp, bool_decide_true by reflexivity. simpl.
    rewrite bool_decide_false by exact Hin.
    destruct (dispatch _ _ _ _ _) as [effs ex]. simpl.
    unfold on_message_exit.
    replace (({[message_id data]} ∪ s) ∖ {[message_id data]}) with s by set_solver.
    destruct ex; reflexivity.
  - intros st Hr. apply (reachable_inflight scheduler_init st Hr).
    split; [constructor|]. intros x. simpl. split; intros H; inversion H.
Qed.

(* ================================================================== *)
(** * Further properties of the code *)

(** ** Strings *)

Lemma startswith_spec (s p : pystr) : startswith s p = true <-> exists suf, s = p ++ suf.
Proof.
  revert s. induction p as [|c p IH]; intros s; simpl.
  - split; [intros _; exists s; reflexivity|destruct s; reflexivity].
  - destruct s as [|d s].
    + split; [discriminate|intros [suf H]; discriminate].
    + change ((c =? d)%N && startswith s p = true <-> (exists suf, d :: s = c :: p ++ suf)).
      rewrite andb_true_iff, N.eqb_eq, IH. split.
      * intros [-> [suf ->]]. exists suf. reflexivity.
      * intros [suf H]. injection H as -> ->. split; [reflexivity|exists suf; reflexivity].
Qed.


Lemma py_lstrip_app (l m : pystr) :
  py_lstrip (l ++ m) = match py_lstrip l with [] => py_lstrip m | x => x ++ m end.
Proof.
  induction l as [|c l IH]; simpl; [reflexivity|].
  destruct (py_isspace c); [exact IH|reflexivity].
Qed.

Lemma py_lstrip_idem (s : pystr) : py_lstrip (py_lstrip s) = py_lstrip s.
Proof.
  induction s as [|c s IH]; simpl; [reflexivity|].
  destruct (py_isspace c) eqn:E; [exact IH|simpl; rewrite E; reflexivity].
Qed.

Lemma py_lstrip_head (c : N) (w : pystr) : py_isspace c = false -> py_lstrip (c :: w) = c :: w.
Proof. intros E. simpl. rewrite E. reflexivity. Qed.

Lemma py_rstrip_head (c : N) (w : pystr) :
  py_isspace c = false -> exists w', py_rstrip (c :: w) = c :: w'.
Proof.
  intros E. unfold py_rstrip. simpl. rewrite py_lstrip_app.
  destruct (py_lstrip (rev w)) as [|x l].
  - rewrite py_lstrip_head by exact E. exists []. reflexivity.
  - exists (rev (x :: l)). rewrite rev_app_distr. reflexivity.
Qed.

Lemma py_rstrip_idem (s : pystr) : py_rstrip (py_rstrip s) = py_rstrip s.
Proof. unfold py_rstrip. rewrite rev_involutive, py_lstrip_idem. reflexivity. Qed.

Lemma py_strip_idem (s : pystr) : py_strip (py_strip s) = py_strip s.
Proof.
  unfold py_strip. destruct (py_lstrip s) as [|c w] eqn:E; [reflexivity|].
  assert (Hc : py_isspace c = false).
  { clear -E. induction s as [|d s IH]; simpl in E; [discriminate|].
    destruct (py_isspace d) eqn:Ed; [exact (IH E)|]. injection E as -> _. exact Ed. }
  destruct (py_rstrip_head c w Hc) as [w' Hw]. rewrite Hw.
  rewrite py_lstrip_head by exact Hc. rewrite <- Hw. apply py_rstrip_idem.
Qed.

(** ** Retryable errors and commands *)


Lemma is_command_strip (command_prefixes : list pystr) (msg : pystr) :
  is_command command_prefixes msg = true ->
  exists prefix rest, In prefix command_prefixes /\ msg = prefix ++ rest /\
    strip_command_prefix command_prefixes msg = py_strip rest.
Proof.
  induction command_prefixes as [|p ps IH]; simpl; [discriminate|].
  destruct (startswith msg p) eqn:Es.
  - intros _. apply startswith_spec in Es as [rest Hr].
    exists p, rest. split; [left; reflexivity|]. split; [exact Hr|].
    rewrite Hr, drop_app_length. reflexivity.
  - intros Hc. destruct (IH Hc) as (q & r & Hq & Hr & Hs).
    exists q, r. split; [right; exact Hq|]. split; assumption.
Qed.



(** ** Message text *)

Lemma extract_loop_app text pre post :
  extract_loop text (pre ++ post) =
  match extract_loop text pre with Some t => extract_loop t post | None => None end.
Proof.
  revert text. induction pre as [|seg pre IH]; intros text; simpl; [reflexivity|].
  destruct (segment_text seg); [apply IH|reflexivity].
Qed.

Lemma extract_message_text_stripped (message_data : json) (text : pystr) :
  extract_message_text message_data = Some text -> py_strip text = text.
Proof.
  intros H. destruct message_data as [| | | |[|c s]|segs|[|kv kvs]]; simpl in H; try discriminate.
  - injection H as <-. reflexivity.
  - destruct (extract_loop [] segs); simpl in H; [|discriminate].
    injection H as <-. apply py_strip_idem.
  - injection H as <-. reflexivity.
Qed.

(** [extract_message_text]: the text it returns has no leading or trailing
    whitespace. A segment that is a dict whose ["type"] is not the string
    "text" (an @-mention, an image, a face) is skipped without being looked
    at: inserting one anywhere changes neither the result nor whether an
    exception is raised. A message given as a non-empty string (OneBot's
    string format) raises instead. *)
Theorem extract_message_text_segments :
  (forall message_data text, extract_message_text message_data = Some text -> py_strip text = text) /\
  (forall pre post kvs,
     (forall t, dict_get kvs (py "type") = Some (JStr t) -> t <> py "text") ->
     extract_message_text (JArr (pre ++ JObj kvs :: post)) = extract_message_text (JArr (pre ++ post))) /\
  (forall s, s <> [] -> extract_message_text (JStr s) = None).
Proof.
  split; [|split].
  - apply extract_message_text_stripped.
  - intros pre post kvs Ht. simpl. rewrite !extract_loop_app.
    destruct (extract_loop [] pre) as [t|]; [|reflexivity]. cbn [extract_loop].
    assert (Hs : segment_text (JObj kvs) = Some []).
    { simpl. destruct (dict_get kvs (py "type")) as [[| | | |ty| |]|]; try reflexivity.
      rewrite bool_decide_false by (apply Ht; reflexivity). reflexivity. }
    rewrite Hs, app_nil_r. reflexivity.
  - intros [|c s] H; [congruence|reflexivity].
Qed.

(** ** Backoff and retries *)

Lemma calculate_backoff_le_max ib mb a d : calculate_backoff ib mb a = Some d -> (d <= mb)%Q.
Proof.
  unfold calculate_backoff.
  assert (Hm : forall x, (py_min x mb <= mb)%Q).
  { intros x. rewrite py_min_Qmin. apply Q.le_min_r. }
  destruct (a - 1 <? 0)%Z; [intros H; injection H as <-; apply Hm|].
  destruct (1024 <=? a - 1)%Z; [discriminate|intros H; injection H as <-; apply Hm].
Qed.

(** [_calculate_backoff] never returns more than [max_backoff]; with a
    non-negative [initial_backoff] its value never decreases as the attempt
    number grows from 1 (as long as it is defined, up to attempt 1024). *)
Theorem calculate_backoff_bounds (initial_backoff max_backoff : Q) :
  (forall attempt d, calculate_backoff initial_backoff max_backoff attempt = Some d -> (d <= max_backoff)%Q) /\
  ((0 <= initial_backoff)%Q ->
   forall a1 a2 d1 d2, (1 <= a1 <= a2)%Z ->
     calculate_backoff initial_backoff max_backoff a1 = Some d1 ->
     calculate_backoff initial_backoff max_backoff a2 = Some d2 -> (d1 <= d2)%Q).
Proof.
  split; [apply calculate_backoff_le_max|].
  intros Hi a1 a2 d1 d2 Ha. unfold calculate_backoff.
  destruct (Z.ltb_spec (a1 - 1) 0); [lia|]. destruct (Z.ltb_spec (a2 - 1) 0); [lia|].
  destruct (1024 <=? a1 - 1)%Z; [discriminate|]. destruct (1024 <=? a2 - 1)%Z; [discriminate|].
  intros H1 H2. injection H1 as <-. injection H2 as <-.
  rewrite !py_min_Qmin. apply Q.min_le_compat_r.
  rewrite !(Qmult_comm initial_backoff). apply Qmult_le_compat_r; [|exact Hi].
  rewrite <- Zle_Qle. apply Z.pow_le_mono_r; lia.
Qed.

Lemma call_loop_sleeps py_lower invoke h :
  forall fuel attempt last_error,
    fuel = Z.to_nat (max_retries h - attempt + 1) -> (1 <= attempt <= max_retries h)%Z ->
    let '(o, effs) := call_loop py_lower invoke h fuel attempt last_error in
    Forall (fun e => exists d, e = Sleep d /\ (d <= max_backoff h)%Q) effs /\
    (attempt - 1 + Z.of_nat (length effs) < max_retries h)%Z /\
    (forall r, o = CallReturn r -> retries r = Some (attempt - 1 + Z.of_nat (length effs))%Z).
Proof.
  induction fuel as [|fuel IH]; intros a le Hf Ha; [lia|].
  cbn [call_loop].
  assert (Hrec : forall le' b, calculate_backoff (initial_backoff h) (max_backoff h) a = Some b ->
            (a <? max_retries h)%Z = true ->
            let '(o, effs) := let '(o, effs) := call_loop py_lower invoke h fuel (a + 1) le' in
                              (o, Sleep b :: effs) in
            Forall (fun e => exists d, e = Sleep d /\ (d <= max_backoff h)%Q) effs /\
            (a - 1 + Z.of_nat (length effs) < max_retries h)%Z /\
            (forall r, o = CallReturn r -> retries r = Some (a - 1 + Z.of_nat (length effs))%Z)).
  { intros le' b Hb Hlt. apply Z.ltb_lt in Hlt.
    specialize (IH (a + 1)%Z le' ltac:(lia) ltac:(lia)).
    destruct (call_loop py_lower invoke h fuel (a + 1) le') as [o effs].
    destruct IH as (Hs & Hl & Hr). simpl length.
    split; [constructor; [exists b; split; [reflexivity|eapply calculate_backoff_le_max; exact Hb]|exact Hs]|].
    split; [lia|]. intros r Ho. rewrite (Hr r Ho). f_equal. lia. }
  assert (Hbase : forall r, retries r = Some (a - 1)%Z ->
            Forall (fun e => exists d, e = Sleep d /\ (d <= max_backoff h)%Q) (@nil effect) /\
            (a - 1 + Z.of_nat (length (@nil effect)) < max_retries h)%Z /\
            (forall r', CallReturn r = CallReturn r' -> retries r' = Some (a - 1 + Z.of_nat (length (@nil effect)))%Z)).
  { intros r Hr. split; [constructor|]. split; [simpl; lia|].
    intros r' Hr'. injection Hr' as <-. rewrite Hr. f_equal. simpl. lia. }
  assert (Hraise : forall m,
            Forall (fun e => exists d, e = Sleep d /\ (d <= max_backoff h)%Q) (@nil effect) /\
            (a - 1 + Z.of_nat (length (@nil effect)) < max_retries h)%Z /\
            (forall r', CallRaise m = CallReturn r' -> retries r' = Some (a - 1 + Z.of_nat (length (@nil effect)))%Z)).
  { intros m. split; [constructor|]. split; [simpl; lia|]. discriminate. }
  assert (Hexc : forall msg,
    let '(o, effs) :=
      if (a <? max_retries h)%Z && is_retryable_error py_lower msg then
        match calculate_backoff (initial_backoff h) (max_backoff h) a with
        | Some backoff =>
            let '(o, effs) := call_loop py_lower invoke h fuel (a + 1) (Some msg) in
            (o, Sleep backoff :: effs)
        | None => (CallRaise overflow_msg, [])
        end
      else (CallReturn (exception_result msg (a - 1)), []) in
    Forall (fun e => exists d, e = Sleep d /\ (d <= max_backoff h)%Q) effs /\
    (a - 1 + Z.of_nat (length effs) < max_retries h)%Z /\
    (forall r, o = CallReturn r -> retries r = Some (a - 1 + Z.of_nat (length effs))%Z)).
  { intros msg. destruct (a <? max_retries h)%Z eqn:Hlt; simpl.
    - destruct (is_retryable_error py_lower msg); simpl.
      + destruct (calculate_backoff (initial_backoff h) (max_backoff h) a) as [b|] eqn:Hb.
        * apply (Hrec (Some msg) b); first [reflexivity|assumption].
        * apply Hraise.
      + apply Hbase. reflexivity.
    - apply Hbase. reflexivity. }
  destruct (invoke a) as [r|msg].
  - destruct (truthy (success r)); [apply Hbase; reflexivity|].
    destruct (a <? max_retries h)%Z eqn:Hlt; [|apply Hbase; reflexivity].
    destruct (default (JStr []) (error r)) as [| | | |s| |]; try apply Hexc.
    destruct (is_retryable_error py_lower s); [|apply Hbase; reflexivity].
    destruct (calculate_backoff (initial_backoff h) (max_backoff h) a) as [b|] eqn:Hb.
    + apply (Hrec (Some s) b); first [reflexivity|assumption].
    + apply Hexc.
  - apply Hexc.
Qed.

(** [call(message)] with [max_retries >= 1] and the CLI found: every delay it
    sleeps is at most [max_backoff], it sleeps fewer than [max_retries]
    times, and a result it returns reports in ["retries"] exactly the number
    of sleeps (the number of retries made). *)
Theorem call_retries_count_sleeps py_lower invoke h (Hmax : (1 <= max_retries h)%Z) :
  let '(o, effs) := call py_lower invoke h true in
  Forall (fun e => exists d, e = Sleep d /\ (d <= max_backoff h)%Q) effs /\
  (Z.of_nat (length effs) < max_retries h)%Z /\
  (forall r, o = CallReturn r -> retries r = Some (Z.of_nat (length effs))).
Proof.
  unfold call.
  pose proof (call_loop_sleeps py_lower invoke h (Z.to_nat (max_retries h)) 1 None
                ltac:(f_equal; lia) ltac:(lia)) as H.
  destruct (call_loop py_lower invoke h (Z.to_nat (max_retries h)) 1 None) as [o effs].
  destruct H as (Hs & Hl & Hr). split; [exact Hs|]. split; [lia|].
  intros r Ho. rewrite (Hr r Ho); f_equal; lia.
Qed.

(** Witness: three "connection reset" failures under [max_retries = 3]. *)
Lemma call_retries_count_sleeps_witness :
  (1 <= max_retries (mk_handler 3 1 60))%Z /\
  let '(o, effs) := call ascii_lower (fun _ => Returned (failed_with (py "connection reset")))
                         (mk_handler 3 1 60) true in
  Forall (fun e => exists d, e = Sleep d /\ (d <= 60)%Q) effs /\
  (Z.of_nat (length effs) < 3)%Z /\
  (forall r, o = CallReturn r -> retries r = Some (Z.of_nat (length effs))).
Proof.
  split; [simpl; lia|].
  exact (call_retries_count_sleeps ascii_lower (fun _ => Returned (failed_with (py "connection reset")))
           (mk_handler 3 1 60) ltac:(simpl; lia)).
Defined.

(** ** Message handlers *)

Lemma not_friend_true (st : option json) :
  st <> Some (JStr (py "friend")) -> not_friend (default (JStr []) st) = true.
Proof.
  intros H. destruct st as [[| | | |t| |]|]; simpl; try reflexivity.
  rewrite bool_decide_false; [reflexivity|]. intros ->. apply H. reflexivity.
Qed.

Lemma py_strip_nonempty (p : pystr) : py_strip p <> [] -> p <> [].
Proof. intros H ->. apply H. reflexivity. Qed.

Lemma is_command_nil (command_prefixes : list pystr) :
  Forall (fun p => p <> []) command_prefixes -> is_command command_prefixes [] = false.
Proof.
  induction 1 as [|p ps Hp _ IH]; simpl; [reflexivity|].
  destruct p as [|c p]; [congruence|exact IH].
Qed.

(** A prompt handed to Claude or a message sent, as [handle_command] and
    [handle_group_message] produce them for the event [data]. *)
Lemma handle_command_actions s data msg :
  is_command (command_prefixes s) msg = true ->
  Forall (fun a => match a with
                   | ReplyToGroup g p => g = group_id (md_event data) /\ p <> [] /\ py_strip p = p
                   | ReplyToUser u p => u = user_id (md_event data) /\ p <> [] /\ py_strip p = p
                   | SendGroupMessage g t => g = group_id (md_event data) /\ t = zh_error_tag ++ zh_usage
                   | SendPrivateMessage u t => u = user_id (md_event data) /\ t = zh_error_tag ++ zh_usage
                   end) (handle_command s data msg).
Proof.
  intros Hc. destruct (is_command_strip _ _ Hc) as (p & rest & _ & _ & Hs).
  unfold handle_command. rewrite Hs, py_strip_idem.
  destruct (bool_decide_reflect (py_strip rest = [])) as [He|He].
  - unfold send_error_actions.
    destruct (bool_decide (message_type (md_event data) = Some (py "private"))).
    + repeat constructor.
    + destruct (bool_decide (message_type (md_event data) = Some (py "group"))); repeat constructor.
  - assert (Hne : py_strip rest <> []) by exact He.
    destruct (bool_decide (message_type (md_event data) = Some (py "private"))).
    + repeat constructor; [exact (py_strip_nonempty _ ltac:(rewrite py_strip_idem; exact Hne))|apply py_strip_idem].
    + destruct (bool_decide (message_type (md_event data) = Some (py "group"))); repeat constructor.
      * exact (py_strip_nonempty _ ltac:(rewrite py_strip_idem; exact Hne)).
      * apply py_strip_idem.
Qed.

(** [handle_group_message] and [handle_private_message] do nothing for a
    group message that does not @-mention the bot ([to_me] absent or false)
    and, under [ignore_temp_session], for a private message whose [sub_type]
    is not "friend" (absent included): no message is sent and Claude is not
    called. *)
Theorem handlers_ignore (s : bot_settings) (data : message_data) :
  (truthy (default (JBool false) (to_me data)) = false ->
     forall actions, handle_group_message s data = Some actions -> actions = []) /\
  (ignore_temp_session s = true -> sub_type data <> Some (JStr (py "friend")) ->
     forall actions, handle_private_message s data = Some actions -> actions = []).
Proof.
  split.
  - intros Ht acts. unfold handle_group_message.
    destruct (extract_message_text _); [|discriminate].
    rewrite Ht. simpl. intros H. injection H as <-. reflexivity.
  - intros Hi Hst acts. unfold handle_private_message.
    destruct (extract_message_text _); [|discriminate].
    rewrite Hi, (not_friend_true _ Hst). simpl. intros H. injection H as <-. reflexivity.
Qed.

(** Everything [handle_group_message] does answers the event's own chat:
    either the usage error "[错误] 请输入问题，例如：/c 解释一下这段代码"
    (for a command with nothing after its prefix), or a Claude reply whose
    prompt is non-empty and has no leading or trailing whitespace. *)
Theorem group_message_actions (s : bot_settings) (data : message_data) (actions : list bot_action) :
  handle_group_message s data = Some actions ->
  Forall (fun a => match a with
                   | ReplyToGroup g p => g = group_id (md_event data) /\ p <> [] /\ py_strip p = p
                   | ReplyToUser u p => u = user_id (md_event data) /\ p <> [] /\ py_strip p = p
                   | SendGroupMessage g t => g = group_id (md_event data) /\ t = zh_error_tag ++ zh_usage
                   | SendPrivateMessage u t => u = user_id (md_event data) /\ t = zh_error_tag ++ zh_usage
                   end) actions.
Proof.
  unfold handle_group_message.
  destruct (extract_message_text _) as [msg|] eqn:Ex; [|discriminate].
  destruct (truthy _); simpl; [|intros H; injection H as <-; constructor].
  destruct (bool_decide_reflect (py_strip msg = [])) as [He|He];
    [intros H; injection H as <-; constructor|].
  destruct (is_command (command_prefixes s) msg) eqn:Hc; intros H; injection H as <-.
  - apply handle_command_actions. exact Hc.
  - pose proof (extract_message_text_stripped _ _ Ex) as Hs.
    repeat constructor; [|exact Hs]. apply py_strip_nonempty. exact He.
Qed.

(** Witness: "@bot /c" in group 7 gets the usage error. *)
Lemma group_message_actions_witness :
  handle_group_message (mk_bot_settings default_command_prefixes true true)
    (mk_message_data (mk_event (Some (py "message")) (Some (py "group")) (Some 1%Z) (Some 7%Z)) None
       (Some (JArr [JObj [(py "type", JStr (py "text")); (py "data", JObj [(py "text", JStr (py "/c "))])]]))
       (Some (JBool true)))
  = Some [SendGroupMessage (Some 7%Z) (zh_error_tag ++ zh_usage)] /\
  Forall (fun a => match a with
                   | ReplyToGroup g p => g = Some 7%Z /\ p <> [] /\ py_strip p = p
                   | ReplyToUser u p => u = Some 1%Z /\ p <> [] /\ py_strip p = p
                   | SendGroupMessage g t => g = Some 7%Z /\ t = zh_error_tag ++ zh_usage
                   | SendPrivateMessage u t => u = Some 1%Z /\ t = zh_error_tag ++ zh_usage
                   end) [SendGroupMessage (Some 7%Z) (zh_error_tag ++ zh_usage)].
Proof.
  split; [vm_compute; reflexivity|].
  exact (group_message_actions (mk_bot_settings default_command_prefixes true true)
    (mk_message_data (mk_event (Some (py "message")) (Some (py "group")) (Some 1%Z) (Some 7%Z)) None
       (Some (JArr [JObj [(py "type", JStr (py "text")); (py "data", JObj [(py "text", JStr (py "/c "))])]]))
       (Some (JBool true)))
    [SendGroupMessage (Some 7%Z) (zh_error_tag ++ zh_usage)] ltac:(vm_compute; reflexivity)).
Defined.

(** A private message from a friend (or with [ignore_temp_session] off)
    whose text is empty, such as a message holding only an image, is sent to
    Claude as the empty prompt when [auto_reply_private] is on and no
    command prefix is empty: unlike [handle_group_message], the private
    handler does not skip empty messages. *)
Theorem private_message_empty_prompt (s : bot_settings) (data : message_data) :
  auto_reply_private s = true ->
  (ignore_temp_session s = false \/ sub_type data = Some (JStr (py "friend"))) ->
  extract_message_text (default (JArr []) (message data)) = Some [] ->
  Forall (fun p => p <> []) (command_prefixes s) ->
  handle_private_message s data = Some [ReplyToUser (user_id (md_event data)) []].
Proof.
  intros Ha Hi Hx Hp. unfold handle_private_message. rewrite Hx.
  assert (Hg : ignore_temp_session s && not_friend (default (JStr []) (sub_type data)) = false).
  { destruct Hi as [-> | ->]; [reflexivity|]. simpl. rewrite ?bool_decide_true by reflexivity. apply andb_false_r. }
  rewrite Hg, is_command_nil by exact Hp. rewrite Ha. reflexivity.
Qed.

(** Witness: a friend's private message made of one image segment. *)
Lemma private_message_empty_prompt_witness :
  handle_private_message (mk_bot_settings default_command_prefixes true true)
    (mk_message_data (mk_event (Some (py "message")) (Some (py "private")) (Some 42%Z) None)
       (Some (JStr (py "friend")))
       (Some (JArr [JObj [(py "type", JStr (py "image")); (py "data", JObj [(py "file", JStr (py "a.png"))])]]))
       None)
  = Some [ReplyToUser (Some 42%Z) []].
Proof.
  apply (private_message_empty_prompt (mk_bot_settings default_command_prefixes true true)
    (mk_message_data (mk_event (Some (py "message")) (Some (py "private")) (Some 42%Z) None)
       (Some (JStr (py "friend")))
       (Some (JArr [JObj [(py "type", JStr (py "image")); (py "data", JObj [(py "file", JStr (py "a.png"))])]]))
       None)).
  - reflexivity.
  - right. reflexivity.
  - vm_compute. reflexivity.
  - repeat constructor; discriminate.
Defined.

(** [handle_command] under the default prefixes: "/c", "/问" or "/ask"
    followed by whitespace only gets the usage error; a message starting with
    "/claude" never does: it matches "/c", and Claude is asked
    ["laude" + rest], stripped (the bare command "/claude" asks "laude"). *)
Theorem default_prefix_commands :
  (forall s data p ws, command_prefixes s = default_command_prefixes ->
     In p [py "/c"; prefix_wen; py "/ask"] -> Forall (fun c => py_isspace c = true) ws ->
     handle_command s data (p ++ ws) = send_error_actions data zh_usage) /\
  (forall s data rest, command_prefixes s = default_command_prefixes ->
     message_type (md_event data) = Some (py "group") ->
     handle_command s data (py "/claude" ++ rest) =
       [ReplyToGroup (group_id (md_event data)) (py_strip (py "laude" ++ rest))]) /\
  (forall s data rest, command_prefixes s = default_command_prefixes ->
     message_type (md_event data) = Some (py "private") ->
     handle_command s data (py "/claude" ++ rest) =
       [ReplyToUser (user_id (md_event data)) (py_strip (py "laude" ++ rest))]).
Proof.
  assert (Hl : forall rest, py_strip (py "laude" ++ rest) <> []).
  { intros rest. rewrite py_strip_nil. intros H. inversion H. discriminate. }
  assert (Hcl : forall rest, strip_command_prefix default_command_prefixes (py "/claude" ++ rest)
                             = py_strip (py "laude" ++ rest)) by reflexivity.
  split; [|split].
  - intros s data p ws Hs Hp Hws. unfold handle_command. rewrite Hs.
    assert (Hpre : forall q r, startswith (q ++ r) q = true)
      by (intros q r; apply startswith_spec; exists r; reflexivity).
    assert (Hst : strip_command_prefix default_command_prefixes (p ++ ws) = py_strip ws)
      by (destruct Hp as [<-|[<-|[<-|[]]]]; unfold default_command_prefixes;
          cbn [strip_command_prefix]; rewrite Hpre; simpl; reflexivity).
    rewrite Hst, py_strip_idem. apply py_strip_nil in Hws. rewrite Hws.
    rewrite bool_decide_true by reflexivity. reflexivity.
  - intros s data rest Hs Hg. unfold handle_command. rewrite Hs, Hcl, py_strip_idem.
    rewrite bool_decide_false by apply Hl. rewrite Hg. reflexivity.
  - intros s data rest Hs Hg. unfold handle_command. rewrite Hs, Hcl, py_strip_idem.
    rewrite bool_decide_false by apply Hl. rewrite Hg. reflexivity.
Qed.

(** ** Liveness supervisor: status notifications *)

Lemma alternating_from_snoc prev l final n :
  alternating_from prev l final ->
  alternating_from prev (l ++ [mk_status (negb final) n]) (negb final).
Proof.
  revert prev. induction l as [|s l IH]; intros prev; simpl.
  - intros ->. split; reflexivity.
  - intros [Hs Hl]. split; [exact Hs|]. apply IH. exact Hl.
Qed.

Lemma handle_disconnect_ok b : supervisor_ok b -> supervisor_ok (handle_disconnect b).
Proof.
  unfold handle_disconnect, supervisor_ok. destruct (online_status b) eqn:Eo; [|rewrite Eo; auto].
  intros [Hn Ha]. simpl. split; [exact Hn|].
  apply (alternating_from_snoc true (notified b) true). exact Ha.
Qed.

Lemma handle_reconnect_ok b : supervisor_ok b -> supervisor_ok (handle_reconnect b).
Proof.
  unfold handle_reconnect, supervisor_ok. destruct (online_status b) eqn:Eo; simpl; [rewrite Eo; auto|].
  intros [Hn Ha]. split; [lia|].
  apply (alternating_from_snoc true (notified b) false). exact Ha.
Qed.

Lemma set_failures_ok b n : (0 <= n)%Z -> supervisor_ok b -> supervisor_ok (set_failures b n).
Proof. intros Hn [_ Ha]. split; [exact Hn|exact Ha]. Qed.

Lemma test_connection_ok c ping_ok b : supervisor_ok b -> supervisor_ok (test_connection c ping_ok b).
Proof.
  intros Hb. unfold test_connection.
  destruct (match ws c with Some w => negb (closed w) && ping_ok | None => false end).
  - destruct (0 <? connection_failures b)%Z; [apply set_failures_ok; [lia|exact Hb]|exact Hb].
  - assert (Hb1 : supervisor_ok (set_failures b (connection_failures b + 1)))
      by (apply set_failures_ok; [destruct Hb; lia|exact Hb]).
    destruct (_ <=? _)%Z; [apply handle_disconnect_ok; exact Hb1|exact Hb1].
Qed.

Lemma heartbeat_iteration_ok b probe : supervisor_ok b -> supervisor_ok (heartbeat_iteration b probe).
Proof.
  destruct probe as [c ping_ok]. intros Hb. unfold heartbeat_iteration.
  destruct (negb (is_connected c)); [apply handle_disconnect_ok; exact Hb|].
  pose proof (test_connection_ok c ping_ok b Hb) as H1.
  destruct (0 <? _)%Z; [apply handle_reconnect_ok; exact H1|exact H1].
Qed.

Lemma heartbeat_run_ok b probes : supervisor_ok b -> supervisor_ok (heartbeat_run b probes).
Proof.
  unfold heartbeat_run. revert b. induction probes as [|p ps IH]; intros b Hb; simpl; [exact Hb|].
  apply IH. apply heartbeat_iteration_ok. exact Hb.
Qed.

(** From the state [Bot.__init__] sets (Online, no failure, nothing
    notified), any sequence of heartbeat iterations keeps the failure count
    non-negative, and the status callbacks are called alternately with
    Offline and Online, starting with Offline, the last one matching the
    current status: a callback is never told the status it already had. *)
Theorem heartbeat_notifications_alternate (max_connection_failures : Z)
    (probes : list (onebot_client * bool)) :
  let b := heartbeat_run (mk_supervisor true 0 max_connection_failures []) probes in
  (0 <= connection_failures b)%Z /\ alternating_from true (notified b) (online_status b).
Proof.
  apply heartbeat_run_ok. split; [simpl; lia|reflexivity].
Qed.

(** While the client reports [is_connected()] false, any number (at least
    one) of heartbeat iterations sets the supervisor Offline, keeps the
    failure count, and notifies exactly once if it was Online and never if
    it was already Offline. *)
Theorem heartbeat_disconnected (b : supervisor) (probes : list (onebot_client * bool)) :
  probes <> [] -> Forall (fun p => is_connected p.1 = false) probes ->
  heartbeat_run b probes =
    if online_status b
    then mk_supervisor false (connection_failures b) (max_connection_failures b)
           (notified b ++ [mk_status false (connection_failures b)])
    else b.
Proof.
  intros Hne Hc. unfold heartbeat_run.
  destruct probes as [|[c p] ps]; [congruence|].
  apply Forall_cons in Hc as [Hc Hps]. simpl in Hc. simpl.
  rewrite Hc. simpl.
  assert (Hoff : online_status (handle_disconnect b) = false).
  { unfold handle_disconnect. destruct (online_status b) eqn:E; [reflexivity|exact E]. }
  assert (Hfix : forall b', online_status b' = false ->
            fold_left heartbeat_iteration ps b' = b').
  { clear -Hps. induction Hps as [|[c p] ps Hc _ IH]; intros b' Ho; simpl; [reflexivity|].
    simpl in Hc. rewrite Hc. simpl. unfold handle_disconnect at 1. rewrite Ho. apply IH. exact Ho. }
  rewrite (Hfix _ Hoff). unfold handle_disconnect.
  destruct (online_status b); reflexivity.
Qed.

(** Witness: an Online supervisor, then a client with no handle and a client
    whose handle is closed. *)
Lemma heartbeat_disconnected_witness :
  heartbeat_run (mk_supervisor true 1 3 [])
    [(mk_client None true, true); (mk_client (Some (mk_websocket true [])) true, true)]
  = mk_supervisor false 1 3 [mk_status false 1].
Proof.
  apply (heartbeat_disconnected (mk_supervisor true 1 3 [])
    [(mk_client None true, true); (mk_client (Some (mk_websocket true [])) true, true)]).
  - discriminate.
  - repeat constructor.
Defined.

(** ** In-flight keys *)

Lemma pretty_N_char_digit x :
  (48 <= Ascii.nat_of_ascii (pretty_N_char x) <= 57)%nat.
Proof. unfold pretty_N_char. repeat case_match; vm_compute; split; repeat constructor. Qed.

Lemma pretty_N_go_digits x s :
  Forall (fun a => 48 <= Ascii.nat_of_ascii a <= 57)%nat (String.list_ascii_of_string s) ->
  Forall (fun a => 48 <= Ascii.nat_of_ascii a <= 57)%nat (String.list_ascii_of_string (pretty_N_go x s)).
Proof.
  revert s. induction (N.lt_wf_0 x) as [x _ IH]; intros s Hs.
  destruct (decide (x = 0%N)) as [->|Hx]; [rewrite pretty_N_go_0; exact Hs|].
  rewrite pretty_N_go_step by lia. apply IH.
  - apply N.div_lt; lia.
  - simpl. constructor; [apply pretty_N_char_digit|exact Hs].
Qed.

Lemma py_pretty_Z_chars (z : Z) :
  Forall (fun c => (48 <= c <= 57)%N \/ c = 45%N) (py (pretty z)).
Proof.
  assert (HN : forall n : N, Forall (fun c => (48 <= c <= 57)%N \/ c = 45%N) (py (pretty n))).
  { intros n. unfold pretty, pretty_N.
    case_decide; [change (py "0") with [48%N]; constructor; [left; lia|constructor]|].
    unfold py. apply Forall_map.
    apply (Forall_impl _ _ _ (pretty_N_go_digits n "" ltac:(constructor))).
    intros a Ha. left. lia. }
  destruct z as [|p|p]; [change (py (pretty 0%Z)) with [48%N]; constructor; [left; lia|constructor]|apply HN|].
  unfold pretty, pretty_Z. unfold py. simpl. constructor; [right; reflexivity|].
  apply (HN (Npos p)).
Qed.

Lemma py_inj (s1 s2 : string) : py s1 = py s2 -> s1 = s2.
Proof.
  intros H. apply (f_equal (map (fun n => Ascii.ascii_of_nat (N.to_nat n)))) in H.
  unfold py in H. rewrite !map_map in H.
  assert (Hid : forall l, map (fun a => Ascii.ascii_of_nat (N.to_nat (N.of_nat (Ascii.nat_of_ascii a)))) l = l).
  { induction l as [|a l IH]; simpl; [reflexivity|]. rewrite Nat2N.id, Ascii.ascii_nat_embedding, IH. reflexivity. }
  rewrite !Hid in H.
  rewrite <- (String.string_of_list_ascii_of_string s1), <- (String.string_of_list_ascii_of_string s2), H.
  reflexivity.
Qed.

Lemma split_at_sep (a a' b b' : pystr) :
  ~ In 95%N a -> ~ In 95%N a' -> a ++ 95%N :: b = a' ++ 95%N :: b' -> a = a' /\ b = b'.
Proof.
  revert a'. induction a as [|c a IH]; intros [|c' a'] Ha Ha' H; simpl in H.
  - injection H as ->. split; reflexivity.
  - injection H as Hc _. exfalso. apply Ha'. left. congruence.
  - injection H as Hc _. exfalso. apply Ha. left. congruence.
  - injection H as -> H. destruct (IH a') as [-> ->]; [intros Hi; apply Ha; right; exact Hi|
      intros Hi; apply Ha'; right; exact Hi|exact H|].
    split; reflexivity.
Qed.

Lemma pretty_no_sep (z : Z) : ~ In 95%N (py (pretty z)).
Proof.
  intros Hi. pose proof (proj1 (List.Forall_forall _ _) (py_pretty_Z_chars z) _ Hi) as H. cbv beta in H. lia.
Qed.

Lemma pretty_not_word (z : Z) (c : N) (w : pystr) :
  (c < 45 \/ 57 < c)%N -> py (pretty z) <> c :: w.
Proof.
  intros Hc E. pose proof (py_pretty_Z_chars z) as H. rewrite E in H.
  apply Forall_cons in H as [H _]. cbv beta in H. lia.
Qed.

Lemma py_str_int_opt_inj (x y : option Z) : py_str_int_opt x = py_str_int_opt y -> x = y.
Proof.
  destruct x as [x|], y as [y|]; simpl; intros H.
  - f_equal. apply (inj pretty). apply py_inj. exact H.
  - exfalso. exact (pretty_not_word x 78 _ ltac:(lia) H).
  - exfalso. exact (pretty_not_word y 78 _ ltac:(lia) (eq_sym H)).
  - reflexivity.
Qed.

Lemma py_str_int_opt_no_sep (x : option Z) : ~ In 95%N (py_str_int_opt x).
Proof.
  destruct x as [x|]; [apply pretty_no_sep|].
  simpl. intros H. repeat destruct H as [H|H]; try discriminate. exact H.
Qed.

(** [message_id] for events of the same [message_type] (such as "private"
    or "group"): two events get the same key, and so the second is dropped
    while the first is processed, exactly when they come from the same
    [user_id] and the same [group_id], where an absent [group_id] and the
    [group_id] 0 count as the same ("private"). *)
Theorem message_id_injective (d1 d2 : event) :
  message_type d1 = message_type d2 ->
  (message_id d1 = message_id d2 <->
   user_id d1 = user_id d2 /\
   (group_id d1 = group_id d2 \/
    (group_id d1 = None \/ group_id d1 = Some 0%Z) /\ (group_id d2 = None \/ group_id d2 = Some 0%Z))).
Proof.
  intros Hmt. unfold message_id. rewrite Hmt.
  change (py "_") with [95%N]. split.
  - intros H. apply app_inv_head in H. simpl in H. injection H as H.
    destruct (split_at_sep _ _ _ _ (py_str_int_opt_no_sep (user_id d1))
                (py_str_int_opt_no_sep (user_id d2)) H) as [Hu Hg].
    split; [apply py_str_int_opt_inj; exact Hu|].
    destruct (group_id d1) as [g1|], (group_id d2) as [g2|].
    + destruct (Z.eqb_spec g1 0), (Z.eqb_spec g2 0); subst.
      * left. reflexivity.
      * exfalso. exact (pretty_not_word g2 112 _ ltac:(lia) (eq_sym Hg)).
      * exfalso. exact (pretty_not_word g1 112 _ ltac:(lia) Hg).
      * left. f_equal. apply (inj pretty). apply py_inj. exact Hg.
    + destruct (Z.eqb_spec g1 0); subst.
      * right. split; [right|left]; reflexivity.
      * exfalso. exact (pretty_not_word g1 112 _ ltac:(lia) Hg).
    + destruct (Z.eqb_spec g2 0); subst.
      * right. split; [left|right]; reflexivity.
      * exfalso. exact (pretty_not_word g2 112 _ ltac:(lia) (eq_sym Hg)).
    + left. reflexivity.
  - intros [Hu [Hg|[Hg1 Hg2]]]; rewrite Hu; [rewrite Hg; reflexivity|].
    do 4 f_equal.
    destruct Hg1 as [-> | ->], Hg2 as [-> | ->]; reflexivity.
Qed.

(** Witness: user 7 in group 12 and user 71 in group 2 get different keys;
    no group and group 0 get the same key. *)
Lemma message_id_injective_witness :
  message_id (mk_event (Some (py "message")) (Some (py "group")) (Some 7%Z) (Some 12%Z)) <>
  message_id (mk_event (Some (py "message")) (Some (py "group")) (Some 71%Z) (Some 2%Z)) /\
  message_id (mk_event (Some (py "message")) (Some (py "private")) (Some 7%Z) None) =
  message_id (mk_event (Some (py "message")) (Some (py "private")) (Some 7%Z) (Some 0%Z)).
Proof.
  split.
  - intros H. apply (message_id_injective
      (mk_event (Some (py "message")) (Some (py "group")) (Some 7%Z) (Some 12%Z))
      (mk_event (Some (py "message")) (Some (py "group")) (Some 71%Z) (Some 2%Z)) eq_refl) in H.
    destruct H as [H _]. discriminate.
  - apply (message_id_injective
      (mk_event (Some (py "message")) (Some (py "private")) (Some 7%Z) None)
      (mk_event (Some (py "message")) (Some (py "private")) (Some 7%Z) (Some 0%Z)) eq_refl).
    split; [reflexivity|]. right. split; [left|right]; reflexivity.
Defined.

(** ** Configuration *)

Lemma split_dot_nonempty (key : pystr) : split_dot key <> [].
Proof.
  destruct key as [|c key]; simpl; [discriminate|].
  destruct (c =? 46)%N; [discriminate|]. destruct (split_dot key); discriminate.
Qed.

Lemma dict_get_fold_acc (kvs : list (pystr * json)) (k : pystr) (acc : option json) :
  fold_left (fun acc '(k', v) => if decide (k' = k) then Some v else acc) kvs acc =
  match dict_get kvs k with Some v => Some v | None => acc end.
Proof.
  unfold dict_get. revert acc. induction kvs as [|[k' v] kvs IH]; intros acc; simpl; [reflexivity|].
  rewrite (IH (if decide (k' = k) then Some v else acc)), (IH (if decide (k' = k) then Some v else None)).
  destruct (fold_left _ kvs None); [reflexivity|]. destruct (decide (k' = k)); reflexivity.
Qed.

Lemma dict_get_set_same kvs k v : dict_get (dict_set kvs k v) k = Some v.
Proof.
  unfold dict_set. destruct (dict_get kvs k) as [v0|] eqn:E.
  - assert (Hm : forall l acc,
               fold_left (fun acc '(k', v') => if decide (k' = k) then Some v' else acc)
                 (map (fun '(k', v') => if decide (k' = k) then (k', v) else (k', v')) l)
                 (option_map (fun _ => v) acc)
               = option_map (fun _ => v)
                   (fold_left (fun acc '(k', v') => if decide (k' = k) then Some v' else acc) l acc)).
    { induction l as [|[k' v'] l IH]; intros acc; simpl; [reflexivity|].
      destruct (decide (k' = k)); simpl.
      + rewrite decide_True by assumption. apply (IH (Some v')).
      + rewrite decide_False by assumption. apply IH. }
    unfold dict_get in *. pose proof (Hm kvs None) as Hk. simpl in Hk. rewrite Hk, E. reflexivity.
  - unfold dict_get. rewrite fold_left_app. simpl. rewrite decide_True by reflexivity. reflexivity.
Qed.


Lemma set_path_cons (config : json) (k : pystr) (ks : list pystr) (value : json) :
  ks <> [] ->
  set_path config (k :: ks) value =
  match config with
  | JObj kvs =>
      match set_path (default (JObj []) (dict_get kvs k)) ks value with
      | Some inner => Some (JObj (dict_set kvs k inner))
      | None => None
      end
  | _ => None
  end.
Proof. destruct ks; [congruence|reflexivity]. Qed.

Lemma set_path_get (keys : list pystr) :
  forall config value config' d, set_path config keys value = Some config' ->
  get_path config' keys d = value.
Proof.
  induction keys as [|k ks IH]; intros c v c' d H; [discriminate|].
  destruct ks as [|k2 ks'].
  - destruct c; try discriminate. injection H as <-. simpl. rewrite dict_get_set_same. reflexivity.
  - rewrite set_path_cons in H by discriminate.
    destruct c as [| | | | | |kvs]; try discriminate.
    destruct (set_path _ (k2 :: ks') v) as [inner|] eqn:Ei; [|discriminate].
    injection H as <-. cbn [get_path]. rewrite dict_get_set_same. exact (IH _ _ _ d Ei).
Qed.


Lemma set_path_fresh (keys : list pystr) value :
  keys <> [] -> exists config', set_path (JObj []) keys value = Some config'.
Proof.
  induction keys as [|k ks IH]; intros Hne; [congruence|].
  destruct ks as [|k2 ks']; [eexists; reflexivity|].
  rewrite set_path_cons by discriminate.
  destruct (IH ltac:(discriminate)) as [c' Hc]. simpl default. rewrite Hc. eexists. reflexivity.
Qed.


(** [Config.set(key, value)] followed by [Config.get(key, default)] gives
    back [value]; [set] on a configuration that was never loaded always
    succeeds (it starts from [{}] and creates every missing level). *)
Theorem config_set_get :
  (forall key value, exists config', config_set None key value = Some config') /\
  (forall config key value config' d, config_set config key value = Some config' ->
     config_get (Some config') key d = value).
Proof.
  split.
  - intros key v. unfold config_set. apply set_path_fresh. apply split_dot_nonempty.
  - intros c key v c' d H. unfold config_set in H. unfold config_get.
    exact (set_path_get _ _ _ _ d H).
Qed.



(** ** OneBot client: delivering a long reply, disconnection *)

Lemma split_every_lengths m :
  forall fuel (l : pystr), Forall (fun t => (length t <= m)%nat) (split_every fuel m l).
Proof.
  induction fuel as [|fuel IH]; intros l; [constructor|].
  destruct l as [|c r]; [constructor|].
  cbn [split_every]. constructor; [|apply IH].
  rewrite length_take. lia.
Qed.

Lemma deliver_chunks json_dumps f payload (Hd : forall j, json_dumps j = inl (f j)) :
  forall chunks w conn, closed w = false ->
  deliver (mk_client (Some w) conn) (fun c t => send c json_dumps (payload t) None)
          (flat_map (fun t => [Send t; Sleep (1 # 2)]) chunks) =
  (mk_client (Some (mk_websocket false (frames w ++ map (fun t => f (payload t)) chunks))) conn, None).
Proof.
  induction chunks as [|t chunks IH]; intros w conn Hw; simpl.
  - rewrite app_nil_r. destruct w as [cl fr]; simpl in Hw; subst cl. reflexivity.
  - unfold send. simpl. rewrite Hw, Hd. simpl.
    etransitivity; [exact (IH (mk_websocket false (frames w ++ [f (payload t)])) conn eq_refl)|]. simpl.
    rewrite <- app_assoc. reflexivity.
Qed.

(** A reply sent by [send_long_message] through [send_private_message] on an
    open connection, with every serialisation and socket write succeeding,
    (the [lambda msg: self.client.send_private_message(user_id, msg)] of
    [reply_to_user]), every serialisation and socket write succeeding, writes
    one frame per chunk, in order; the chunks concatenate to the reply and
    none is longer than [max_length]. An empty reply is still sent, as one
    empty message. *)
Theorem long_reply_delivery c w json_dumps f user_id (msg : pystr) max_length effs
    (Hws : ws c = Some w) (Hopen : closed w = false)
    (Hd : forall j, json_dumps j = inl (f j))
    (Hs : send_long_message msg max_length = Some effs) :
  exists chunks,
    concat chunks = msg /\
    Forall (fun t => (length t <= max_length)%nat) chunks /\
    (msg = [] -> chunks = [[]]) /\
    deliver c (fun c' t => send_private_message c' json_dumps user_id t None) effs =
      (mk_client (Some (mk_websocket false
         (frames w ++ map (fun t => f (send_private_msg_payload user_id t)) chunks)))
         (connected c), None).
Proof.
  destruct c as [ws0 conn]; simpl in Hws; subst ws0.
  destruct (Nat.leb_spec (length msg) max_length) as [Hle|Hgt].
  - unfold send_long_message in Hs. rewrite (proj2 (Nat.leb_le _ _) Hle) in Hs.
    injection Hs as <-. exists [msg].
    split; [apply app_nil_r|]. split; [constructor; [exact Hle|constructor]|].
    split; [intros ->; reflexivity|].
    apply (deliver_chunks json_dumps f _ Hd [msg] w conn Hopen).
  - destruct (Nat.eq_dec max_length 0) as [H0|H0].
    + subst max_length. unfold send_long_message in Hs.
      destruct (Nat.leb_spec (length msg) 0); [lia|]. discriminate Hs.
    + rewrite send_long_message_chunks in Hs by lia. injection Hs as <-.
      exists (split_every (length msg) max_length msg).
      split; [apply split_every_concat; lia|].
      split; [apply split_every_lengths|].
      split; [intros ->; simpl in Hgt; lia|].
      apply (deliver_chunks json_dumps f _ Hd _ w conn Hopen).
Qed.

Lemma long_reply_delivery_witness :
  exists chunks,
    concat chunks = [97; 98; 99]%N /\
    Forall (fun t => (length t <= 2)%nat) chunks /\
    ([97; 98; 99]%N = [] -> chunks = [[]]) /\
    deliver live_client (fun c' t => send_private_message c' (fun _ => inl [48]%N) (Some 42%Z) t None)
      [Send [97; 98]%N; Sleep (1 # 2); Send [99]%N; Sleep (1 # 2)] =
      (mk_client (Some (mk_websocket false
         ([] ++ map (fun t => (fun _ : json => [48]%N) (send_private_msg_payload (Some 42%Z) t)) chunks)))
         (connected live_client), None).
Proof.
  apply (long_reply_delivery live_client (mk_websocket false []) (fun _ => inl [48]%N)
           (fun _ => [48]%N) (Some 42%Z) [97; 98; 99]%N 2); reflexivity.
Defined.

(** After [disconnect()] the client reports itself disconnected and every
    [send] raises [ConnectionError] without touching the socket; the frames
    already written are kept. *)
Theorem disconnect_blocks_send c :
  is_connected (disconnect c) = false /\
  option_map frames (ws (disconnect c)) = option_map frames (ws c) /\
  forall json_dumps data socket_error,
    send (disconnect c) json_dumps data socket_error =
      (disconnect c, Some (ConnectionError ws_not_connected)).
Proof.
  destruct c as [[w|] conn]; unfold disconnect; simpl.
  - split; [reflexivity|]. split; [reflexivity|]. intros. unfold send. reflexivity.
  - split; [reflexivity|]. split; [reflexivity|]. intros. unfold send. reflexivity.
Qed.

(** ** Bot status *)

(** In any state reached by interleaved arrivals and completions of
    [on_message], [get_status()] reports as [message_count] the number of
    conversations being processed; [client_connected] is truthy exactly when
    [is_connected()] holds, and is [None] when the client is flagged connected
    without a handle. *)
Theorem get_status_message_count st (Hr : rtc step scheduler_init st) b heartbeat_interval
    heartbeat_enabled c :
  bs_message_count (get_status b heartbeat_interval heartbeat_enabled c (inflight st))
    = length (running st) /\
  truthy (bs_client_connected (get_status b heartbeat_interval heartbeat_enabled c (inflight st)))
    = is_connected c /\
  (connected c = true -> ws c = None ->
   bs_client_connected (get_status b heartbeat_interval heartbeat_enabled c (inflight st)) = JNull).
Proof.
  destruct (reachable_inflight scheduler_init st Hr) as [Hnd Hm].
  { split; [constructor|]. intros x. simpl. split; intros H; inversion H. }
  split; [|split].
  - simpl. assert (inflight st = list_to_set (running st)) as ->.
    { apply set_eq. intros x. rewrite elem_of_list_to_set. apply Hm. }
    apply size_list_to_set. exact Hnd.
  - unfold get_status, is_connected_value, is_connected. simpl.
    destruct (connected c); simpl; [|reflexivity].
    destruct (ws c) as [w|]; reflexivity.
  - intros Hc Hw. unfold get_status, is_connected_value. simpl. rewrite Hc, Hw. reflexivity.
Qed.

Lemma get_status_message_count_witness :
  bs_message_count (get_status (mk_supervisor true 0 3 []) (JInt 60) (JBool true) live_client
     (inflight (mk_scheduler ({[message_id (mk_event (Some (py "message")) (Some (py "private")) (Some 42%Z) None)]} ∪ ∅) [message_id (mk_event (Some (py "message")) (Some (py "private")) (Some 42%Z) None)]))) = 1%nat.
Proof.
  refine (eq_trans (proj1 (get_status_message_count
     (mk_scheduler ({[message_id (mk_event (Some (py "message")) (Some (py "private")) (Some 42%Z) None)]} ∪ ∅) [message_id (mk_event (Some (py "message")) (Some (py "private")) (Some 42%Z) None)])
     (rtc_once _ _ (step_arrive scheduler_init (mk_event (Some (py "message")) (Some (py "private")) (Some 42%Z) None)))
     (mk_supervisor true 0 3 []) (JInt 60) (JBool true) live_client)) _).
  reflexivity.
Defined.

(** ** Locating the Claude CLI *)

(** A configured CLI path that does not exist is ignored silently: the lookup
    then behaves as for the default ["claude"]. A path found is the existing
    configured one, a non-empty result of [shutil.which], or an existing
    common location; [None] means all three failed. *)
Theorem find_claude_cli_spec path_exists which_claude expanduser cli_path :
  (cli_path <> py "claude" -> path_exists cli_path = false ->
   find_claude_cli path_exists which_claude expanduser cli_path =
   find_claude_cli path_exists which_claude expanduser (py "claude")) /\
  (forall p, find_claude_cli path_exists which_claude expanduser cli_path = Some p ->
     (p = cli_path /\ cli_path <> py "claude" /\ path_exists p = true) \/
     (which_claude = Some p /\ p <> []) \/
     ((which_claude = None \/ which_claude = Some []) /\
      In p (common_paths expanduser) /\ path_exists p = true)) /\
  (find_claude_cli path_exists which_claude expanduser cli_path = None ->
     (cli_path = py "claude" \/ path_exists cli_path = false) /\
     (which_claude = None \/ which_claude = Some []) /\
     Forall (fun p => path_exists p = false) (common_paths expanduser)).
Proof.
  assert (Hrest : forall p,
    match which_claude with
    | Some p0 => if bool_decide (p0 = []) then find path_exists (common_paths expanduser) else Some p0
    | None => find path_exists (common_paths expanduser)
    end = Some p ->
    (which_claude = Some p /\ p <> []) \/
    ((which_claude = None \/ which_claude = Some []) /\
     In p (common_paths expanduser) /\ path_exists p = true)).
  { intros p. destruct which_claude as [w|].
    - destruct (bool_decide_reflect (w = [])) as [->|Hw].
      + intros Hf. apply List.find_some in Hf. right. auto.
      + intros [= <-]. left. auto.
    - intros Hf. apply List.find_some in Hf. right. auto. }
  assert (Hnone :
    match which_claude with
    | Some p0 => if bool_decide (p0 = []) then find path_exists (common_paths expanduser) else Some p0
    | None => find path_exists (common_paths expanduser)
    end = None ->
    (which_claude = None \/ which_claude = Some []) /\
    Forall (fun p => path_exists p = false) (common_paths expanduser)).
  { destruct which_claude as [w|].
    - destruct (bool_decide_reflect (w = [])) as [->|Hw]; [|discriminate].
      intros Hf. split; [right; reflexivity|].
      apply List.Forall_forall. intros x Hx. exact (List.find_none _ _ Hf x Hx).
    - intros Hf. split; [left; reflexivity|].
      apply List.Forall_forall. intros x Hx. exact (List.find_none _ _ Hf x Hx). }
  unfold find_claude_cli.
  rewrite (bool_decide_true (py "claude" = py "claude")) by reflexivity. simpl.
  split; [|split].
  - intros Hc He. rewrite (bool_decide_false _ Hc), He. reflexivity.
  - intros p. destruct (bool_decide_reflect (cli_path = py "claude")) as [Hc|Hc]; simpl.
    + intros Hf. right. apply Hrest, Hf.
    + destruct (path_exists cli_path) eqn:He.
      * intros [= <-]. left. auto.
      * intros Hf. right. apply Hrest, Hf.
  - destruct (bool_decide_reflect (cli_path = py "claude")) as [Hc|Hc]; simpl.
    + intros Hf. destruct (Hnone Hf). auto.
    + destruct (path_exists cli_path) eqn:He; [discriminate|].
      intros Hf. destruct (Hnone Hf). auto.
Qed.
